(** * github-webhook-resource: the [out] script ([bin/out.js])

    A shallow embedding of the script that reconciles a desired GitHub
    webhook with the hooks registered on a repository, and the properties of
    its URL composer, hook matcher and reconciliation switch.

    Conventions of the embedding.
    - A JavaScript string is the sequence of bytes of its UTF-8 text
      ([string]); every string the script handles is read from JSON text or
      from the process environment.
    - A JavaScript object whose entries are enumerated ([Object.entries]) is
      the list of its entries in enumeration order; an object that is only
      looked into ([hook.config]) is a finite map.
    - The run-time's [JSON.parse], the process environment, the clock, the
      input validator ([./validate], not part of this file's source) and the
      GitHub server are parameters of the development. *)

From Stdlib Require Import Ascii String.
From stdpp Require Import base strings list gmap sorting pretty.

Set Warnings "-register-all".
Open Scope string_scope.
Open Scope list_scope.

(** ** JavaScript values *)

(** A value read by [JSON.parse].  A number carries the text that
    [Number.prototype.toString] prints for it: the script only ever converts
    such numbers to strings or tests them for truthiness. *)
Inductive json : Type :=
| JNull
| JBool (b : bool)
| JNum (repr : string)
| JStr (s : string)
| JArr (items : list json)
| JObj (entries : list (string * json)).

(** The double quote character, U+0022. *)
Definition dquote : string := String "034"%char EmptyString.

(** [ToString(v)], as applied by a template literal [`${v}`].  An object
    read from JSON text prints [[object Object]]; the embedding leaves out
    the objects that have an own entry named [toString] (or an array that
    holds one), for which the run-time's conversion throws a TypeError
    instead: instance variables are typed as strings. *)
Fixpoint ToString (v : json) : string :=
  match v with
  | JNull => "null"
  | JBool true => "true"
  | JBool false => "false"
  | JNum repr => repr
  | JStr s => s
  | JArr items =>
      String.concat ","
        (map (fun x => match x with JNull => "" | _ => ToString x end) items)
  | JObj _ => "[object Object]"
  end.

(** [ToBoolean(v)]: what [if (v)], [v ? a : b] and [a && v] test. *)
Definition truthy (v : json) : bool :=
  match v with
  | JNull => false
  | JBool b => b
  | JNum repr => negb (String.eqb repr "0")
  | JStr s => negb (String.eqb s "")
  | JArr _ | JObj _ => true
  end.

(** Truthiness of a property that holds a string when it is defined. *)
Definition truthy_str (o : option string) : bool :=
  match o with
  | Some s => negb (String.eqb s "")
  | None => false
  end.

(** [`${o}`] for a property that may be [undefined]. *)
Definition tpl (o : option string) : string := default "undefined" o.

(** Errors thrown by the script and by the run-time. *)
Inductive github_error : Type :=
  GithubError (name : string) (statusCode : option Z) (error : string).

Inductive exn : Type :=
| SyntaxError (text : string)          (* JSON.parse on text that is not JSON *)
| TypeError                            (* Object.entries(null) *)
| ErrorOf (cause : exn)                (* new Error(exception) *)
| RequestError (e : github_error).     (* rejection of request(options) *)

Inductive completion (A : Type) : Type :=
| Normal (a : A)
| Throw (e : exn).
Arguments Normal {A} a.
Arguments Throw {A} e.

(** [Object.entries(v)].  [null] has no object form; a number or a boolean
    has no own enumerable property; a string has one entry per byte of
    its text, which is exact on ASCII text only (the run-time has one entry
    per UTF-16 code unit); an array has one entry per index. *)
Definition Object_entries (v : json) : completion (list (string * json)) :=
  match v with
  | JNull => Throw TypeError
  | JBool _ | JNum _ => Normal []
  | JStr s =>
      Normal (imap (fun i c => (pretty i, JStr (String c EmptyString)))
                   (list_ascii_of_string s))
  | JArr items => Normal (imap (fun i x => (pretty i, x)) items)
  | JObj entries => Normal entries
  end.

(** ** [encodeURI] *)

(** The characters [encodeURI] leaves alone: letters, digits, the URI
    reserved characters, the unreserved marks and [#].  The function is
    total on the strings of the embedding, which are UTF-8 texts; a
    JavaScript string with a lone surrogate has no UTF-8 text and is left
    out: on such a string the run-time's [encodeURI] throws a URIError. *)
Definition uri_marks : list ascii := list_ascii_of_string ";/?:@&=+$,-_.!~*'()#".

Definition uri_unescaped (c : ascii) : bool :=
  let n := nat_of_ascii c in
  ((65 <=? n)%nat && (n <=? 90)%nat) || ((97 <=? n)%nat && (n <=? 122)%nat)
  || ((48 <=? n)%nat && (n <=? 57)%nat) || existsb (Ascii.eqb c) uri_marks.

Definition hex_digit (n : nat) : ascii :=
  if (n <? 10)%nat then ascii_of_nat (48 + n)%nat else ascii_of_nat (55 + n)%nat.

(** One byte of the UTF-8 text, escaped as [%XX] in upper-case hexadecimal
    unless it is left alone. *)
Definition encode_byte (c : ascii) : string :=
  if uri_unescaped c then String c EmptyString
  else
    let n := nat_of_ascii c in
    String "%"%char (String (hex_digit (n / 16)%nat) (String (hex_digit (n mod 16)%nat) EmptyString)).

Fixpoint encodeURI (s : string) : string :=
  match s with
  | EmptyString => EmptyString
  | String c rest => encode_byte c +:+ encodeURI rest
  end.

(** ** The input document and the environment *)

Record Env : Type := {
  BUILD_TEAM_NAME : option string;
  BUILD_PIPELINE_NAME : option string;
  ATC_EXTERNAL_URL : option string;
  BUILD_PIPELINE_INSTANCE_VARS : option string
}.

Record Source : Type := {
  concourse_url : option string;
  github_api : string;
  github_token : string
}.

Record Params : Type := {
  org : string;
  repo : string;
  operation : string;
  pipeline : option string;
  resource_name : string;
  webhook_token : string;
  events : option (list string);
  pipeline_instance_vars : option json
}.

(** ** The URL composer *)

(** One query fragment, [`&vars.${key}="${value}"`]. *)
Definition fragment (kv : string * json) : string :=
  "&vars." +:+ kv.1 +:+ "=" +:+ dquote +:+ ToString kv.2 +:+ dquote.

(** The [for (const [key, value] of ...) vars += ...] loop. *)
Definition append_fragments (vars : string) (entries : list (string * json)) : string :=
  fold_left (fun vars kv => vars +:+ fragment kv) entries vars.

Section Composer.
Variable JSON_parse : string -> option json.
Variable env : Env.

(** [JSON.parse(text)] as a computation that may throw. *)
Definition parse (text : string) : completion json :=
  match JSON_parse text with
  | Some v => Normal v
  | None => Throw (SyntaxError text)
  end.

(** The first [if] of [buildInstanceVariables]: the ambient variables. *)
Definition ambient_fragments (vars : string) : completion string :=
  if truthy_str (BUILD_PIPELINE_INSTANCE_VARS env) then
    match parse (tpl (BUILD_PIPELINE_INSTANCE_VARS env)) with
    | Throw exception => Throw (ErrorOf exception)
    | Normal instanceVars =>
        match Object_entries instanceVars with
        | Throw exception => Throw (ErrorOf exception)
        | Normal entries => Normal (append_fragments vars entries)
        end
    end
  else Normal vars.

(** The second [if]: the variables of [params.pipeline_instance_vars]. *)
Definition param_fragments (params : Params) (vars : string) : completion string :=
  match pipeline_instance_vars params with
  | Some v =>
      if truthy v then
        match Object_entries v with
        | Throw exception => Throw (ErrorOf exception)
        | Normal entries => Normal (append_fragments vars entries)
        end
      else Normal vars
  | None => Normal vars
  end.

Definition buildInstanceVariables (params : Params) : completion string :=
  match ambient_fragments "" with
  | Throw e => Throw e
  | Normal vars => param_fragments params vars
  end.

(** The part of the template after the base URL. *)
Definition url_tail (params : Params) (instanceVars : string) : string :=
  "/api/v1/teams/" +:+ tpl (BUILD_TEAM_NAME env)
  +:+ "/pipelines/"
  +:+ (if truthy_str (pipeline params) then tpl (pipeline params)
       else tpl (BUILD_PIPELINE_NAME env))
  +:+ "/resources/" +:+ resource_name params
  +:+ "/check/webhook?webhook_token=" +:+ webhook_token params
  +:+ instanceVars.

Definition buildUrl (source : Source) (params : Params) : completion string :=
  match buildInstanceVariables params with
  | Throw e => Throw e
  | Normal instanceVars =>
      if truthy_str (concourse_url source) then
        Normal (encodeURI (tpl (concourse_url source) +:+ url_tail params instanceVars))
      else
        Normal (encodeURI (tpl (ATC_EXTERNAL_URL env) +:+ url_tail params instanceVars))
  end.
End Composer.

(** ** Hooks, the matcher and the comparison of event lists *)

(** A hook as the repository reports it. *)
Record Hook : Type := {
  id : Z;
  config : gmap string json;
  hook_events : list string
}.

(** The object [{ 'url': url, 'content-type': 'json' }]: its entries. *)
Definition desired_config (url : string) : list (string * string) :=
  [("url", url); ("content-type", "json")].

(** [_.isMatch(object, source)] for a [source] whose values are strings:
    every entry of [source] is a property of [object] with a strictly equal
    value. *)
Definition isMatch (object : gmap string json) (source : list (string * string)) : bool :=
  forallb (fun kv => match object !! kv.1 with
                     | Some (JStr s) => String.eqb s kv.2
                     | _ => false
                     end) source.

(** Line 101: [existingHookList.find(hook => _.isMatch(hook.config, config))]. *)
Definition find_hook (existingHookList : list Hook) (url : string) : option Hook :=
  find (fun hook => isMatch (config hook) (desired_config url)) existingHookList.

(** [_.sortBy(collection)] on strings: ascending order; a collection that
    is [undefined] sorts to the empty array. *)
Definition sortBy (collection : option (list string)) : list string :=
  merge_sort String.le (default [] collection).

(** [_.isEqual] on two arrays of strings. *)
Definition isEqual (a b : list string) : bool := bool_decide (a = b).

(** [new Set(array)] and its spread: every element is added at the end
    unless it is already a member. *)
Definition Set_add (s : list string) (x : string) : list string :=
  if bool_decide (x ∈ s) then s else s ++ [x].

Definition Set_of (array : list string) : list string := fold_left Set_add array [].

(** Lines 38-40 of the script: the default event list. *)
Definition default_events (events : option (list string)) : list string :=
  match events with
  | None => ["push"]
  | Some l => if (length l =? 0)%nat then ["push"] else l
  end.

(** Lines 38-43: the events handed to [processWebhook]. *)
Definition normalise_events (events : option (list string)) : list string :=
  Set_of (default_events events).

(** ** Effects *)

Inductive method : Type := GET | POST | PATCH | DELETE.

(** The request body, before [JSON.stringify]. *)
Record Body : Type := {
  body_name : string;
  body_config : list (string * string);
  body_events : option (list string)
}.

(** The [options] of one call: the headers other than the token are fixed. *)
Record request : Type := {
  uri : string;
  meth : method;
  token : string;
  body : option Body
}.

(** What [log] writes on the error stream, by call site. *)
Inductive diagnostic : Type :=
| EmptyInput
| InputError (message : string)
| Locations (webhookEndpoint url : string)
| AlreadyExists
| DoesNotExist
| Created (hook : Hook)
| Updated (existingHook hook : Hook)
| Deleted
| CallFailed (name : string) (statusCode : option Z) (message : json)
| NotFoundHint (uri : string)
| Stack (error : exn).

Inductive effect : Type :=
| Stderr (d : diagnostic)
| Stdout (text : string)
| Call (r : request).

(** How a computation ends: it returns, the process exits, or an error
    propagates. *)
Inductive outcome (A : Type) : Type :=
| Ret (a : A)
| Exit (code : Z)
| Raise (e : exn).
Arguments Ret {A} a.
Arguments Exit {A} code.
Arguments Raise {A} e.

(** A computation: the effects it performs, in order, and how it ends. *)
Definition M (A : Type) : Type := list effect * outcome A.

#[global] Instance M_ret : MRet M := fun A a => ([], Ret a).
#[global] Instance M_bind : MBind M := fun A B f m =>
  match m with
  | (t, Ret a) => let '(t', o) := f a in (t ++ t', o)
  | (t, Exit code) => (t, Exit code)
  | (t, Raise e) => (t, Raise e)
  end.

Definition log (d : diagnostic) : M unit := ([Stderr d], Ret tt).
Definition console_log (text : string) : M unit := ([Stdout text], Ret tt).
Definition process_exit {A} (code : Z) : M A := ([], Exit code).
Definition throw {A} (e : exn) : M A := ([], Raise e).

(** [promise.catch(handler)], and [try { } catch]. *)
Definition catch {A} (m : M A) (handler : exn -> M A) : M A :=
  match m with
  | (t, Raise e) => let '(t', o) := handler e in (t ++ t', o)
  | _ => m
  end.

Definition lift {A} (c : completion A) : M A :=
  match c with
  | Normal a => mret a
  | Throw e => throw e
  end.

(** The effects of each kind in a trace. *)
Definition stdout_of (t : list effect) : list string :=
  omap (fun e => match e with Stdout text => Some text | _ => None end) t.
Definition stderr_of (t : list effect) : list diagnostic :=
  omap (fun e => match e with Stderr d => Some d | _ => None end) t.
Definition calls_of (t : list effect) : list request :=
  omap (fun e => match e with Call r => Some r | _ => None end) t.
Definition is_write (r : request) : bool :=
  match meth r with GET => false | _ => true end.
Definition writes_of (t : list effect) : list request := filter is_write (calls_of t).

(** ** The result emitter *)

Definition newline : string := String "010"%char EmptyString.

(** [JSON.stringify(s)] of a string without characters to escape, as the
    decimal numerals are. *)
Definition quote (s : string) : string := dquote +:+ s +:+ dquote.

(** [JSON.stringify({ version: { id: idText } }, null, 2)]. *)
Definition stringify_version (idText : string) : string :=
  "{" +:+ newline
  +:+ "  " +:+ quote "version" +:+ ": {" +:+ newline
  +:+ "    " +:+ quote "id" +:+ ": " +:+ quote idText +:+ newline
  +:+ "  }" +:+ newline
  +:+ "}".

(** [emit(result)]; [result.id] is a number, printed in decimal. *)
Definition emit {A} (result_id : Z) : M A :=
  console_log (stringify_version (pretty result_id));;
  process_exit 0.

(** ** The script *)

(** [`${source.github_api}/repos/${params.org}/${params.repo}/hooks`]. *)
Definition hooks_endpoint (source : Source) (params : Params) : string :=
  github_api source +:+ "/repos/" +:+ org params +:+ "/" +:+ repo params +:+ "/hooks".

(** The [body] object of [processWebhook]. *)
Definition hook_body (config' : list (string * string)) (params : Params) : Body :=
  {| body_name := "web"; body_config := config'; body_events := events params |}.

(** [params.events = events']: the parameters with their events replaced. *)
Definition set_events (params : Params) (events' : list string) : Params :=
  {| org := org params; repo := repo params; operation := operation params;
     pipeline := pipeline params; resource_name := resource_name params;
     webhook_token := webhook_token params;
     events := Some events';
     pipeline_instance_vars := pipeline_instance_vars params |}.

(** The requests of the script. *)
Definition list_request (source : Source) (params : Params) : request :=
  {| uri := hooks_endpoint source params; meth := GET;
     token := github_token source; body := None |}.
Definition create_request (source : Source) (params : Params) (url : string) : request :=
  {| uri := hooks_endpoint source params; meth := POST; token := github_token source;
     body := Some (hook_body (desired_config url) params) |}.
Definition update_request (source : Source) (params : Params) (url : string)
    (existingHook : Hook) : request :=
  {| uri := hooks_endpoint source params +:+ "/" +:+ pretty (id existingHook);
     meth := PATCH; token := github_token source;
     body := Some (hook_body (desired_config url) params) |}.
Definition delete_request (source : Source) (params : Params) (existingHook : Hook) : request :=
  {| uri := hooks_endpoint source params +:+ "/" +:+ pretty (id existingHook);
     meth := DELETE; token := github_token source; body := None |}.

(** The GitHub server and the clock of one run.  A call that succeeds
    answers with the document of the hook API ([res.body], read by
    [JSON.parse]): the list of hooks, or the hook written; a call that fails
    rejects with an error. *)
Record World : Type := {
  now : Z;
  list_reply : request -> github_error + list Hook;
  write_reply : request -> github_error + Hook;
  delete_reply : request -> github_error + unit
}.

Section Script.
Variable JSON_parse : string -> option json.
Variable env : Env.
Variable world : World.

(** [JSON.parse(input); validate.env(process.env);
    validate.config(resourceConfig)] followed by the reading of [source]
    and [params]: the message of the error thrown, or the validated
    document.  The validator is not part of this file's source. *)
Variable read_input : string -> string + Source * Params.

(** [callGithub]: the call, and the handler of its rejection. *)
Definition callGithub {A} (options : request) (reply : request -> github_error + A) : M A :=
  catch
    (([Call options],
      match reply options with
      | inr res => Ret res
      | inl err => Raise (RequestError err)
      end) : M A)
    (fun e =>
       match e with
       | RequestError (GithubError name statusCode error) =>
           message ← lift (parse JSON_parse error);
           log (CallFailed name statusCode message);;
           (if bool_decide (statusCode = Some 404%Z)
            then log (NotFoundHint (uri options)) else mret tt);;
           process_exit 1
       | _ => throw e
       end).

Definition getExistingHooks (webhookEndpoint githubToken : string) : M (list Hook) :=
  callGithub {| uri := webhookEndpoint; meth := GET; token := githubToken; body := None |}
             (list_reply world).

Definition createWebhook (webhookEndpoint : string) (method' : method)
    (githubToken : string) (body' : Body) : M unit :=
  catch
    (res ← callGithub {| uri := webhookEndpoint; meth := method';
                         token := githubToken; body := Some body' |}
                      (write_reply world);
     log (Created res);;
     emit (id res))
    (fun error => log (Stack error);; process_exit 1).

Definition updateWebhook (webhookEndpoint : string) (method' : method)
    (githubToken : string) (body' : Body) (existingHook : Hook) : M unit :=
  catch
    (res ← callGithub {| uri := webhookEndpoint; meth := method';
                         token := githubToken; body := Some body' |}
                      (write_reply world);
     log (Updated existingHook res);;
     emit (id res))
    (fun error => log (Stack error);; process_exit 1).

Definition deleteWebhook (webhookEndpoint : string) (webhook : Hook)
    (githubToken : string) : M unit :=
  let deleteUri := webhookEndpoint +:+ "/" +:+ pretty (id webhook) in
  callGithub {| uri := deleteUri; meth := DELETE; token := githubToken; body := None |}
             (delete_reply world);;
  log Deleted;;
  emit (id webhook).

Definition processWebhook (source : Source) (params : Params) : M unit :=
  let webhookEndpoint := hooks_endpoint source params in
  url ← lift (buildUrl JSON_parse env source params);
  log (Locations webhookEndpoint url);;
  let config' := desired_config url in
  let body' := hook_body config' params in
  existingHookList ← getExistingHooks webhookEndpoint (github_token source);
  let existingHook := find_hook existingHookList url in
  if String.eqb (operation params) "create" then
    match existingHook with
    | None => createWebhook webhookEndpoint POST (github_token source) body'
    | Some existingHook =>
        if negb (isEqual (sortBy (Some (hook_events existingHook)))
                         (sortBy (body_events body')))
        then updateWebhook (webhookEndpoint +:+ "/" +:+ pretty (id existingHook))
                           PATCH (github_token source) body' existingHook
        else log AlreadyExists;; emit (id existingHook)
    end
  else if String.eqb (operation params) "delete" then
    match existingHook with
    | None => log DoesNotExist;; emit (now world)
    | Some existingHook => deleteWebhook webhookEndpoint existingHook (github_token source)
    end
  else mret tt.

(** The handler of the end of the standard input. *)
Definition on_end (input : string) : M unit :=
  if String.eqb input "" then log EmptyInput
  else
    match read_input input with
    | inl message => log (InputError message);; process_exit 1
    | inr (source, params) =>
        let params := set_events params (normalise_events (events params)) in
        processWebhook source params
    end.
End Script.

(** ** The link of the 404 hint *)

Fixpoint string_drop (n : nat) (s : string) : string :=
  match n, s with
  | O, _ => s
  | S n, String _ rest => string_drop n rest
  | S _, EmptyString => EmptyString
  end.

(** [s.replace(pattern, replacement)] for a pattern that is a string and a
    replacement without [$]: the first occurrence of [pattern] is replaced,
    and [s] is returned as it is when there is none. *)
Fixpoint replace_first (pattern replacement s : string) : string :=
  if String.prefix pattern s then
    replacement +:+ string_drop (String.length pattern) s
  else
    match s with
    | EmptyString => EmptyString
    | String c rest => String c (replace_first pattern replacement rest)
    end.

(** The link in the message that the diagnostic [NotFoundHint uri] stands
    for, which [callGithub] prints when the status is 404:
    [uri.replace('//api.', '//').replace('/repos', '')
        .replace('/hooks', '/settings/collaboration')], where [uri] is the
    address of the call that failed. *)
Definition collaboration_url (uri : string) : string :=
  replace_first "/hooks" "/settings/collaboration"
    (replace_first "/repos" "" (replace_first "//api." "//" uri)).

(** ** Vocabulary of the properties *)

(** Every key/value pair of the desired config is present with an equal
    value in the hook's config record. *)
Definition config_contains (object : gmap string json) (url : string) : Prop :=
  ∀ k v, (k, v) ∈ desired_config url → object !! k = Some (JStr v).

(** The fragments of a list of entries, one after the other. *)
Definition join_fragments (entries : list (string * json)) : string :=
  fold_right (fun kv rest => fragment kv +:+ rest) "" entries.

(** The base URL of the template. *)
Definition base_url (env : Env) (source : Source) : string :=
  if truthy_str (concourse_url source) then tpl (concourse_url source)
  else tpl (ATC_EXTERNAL_URL env).

(** The two outcomes a run is meant to have: one result with a non-empty id and a
    successful exit, or no result, a diagnostic and a failing exit. *)
Definition emits_or_fails (r : M unit) : Prop :=
  (∃ idText, idText ≠ "" ∧ stdout_of r.1 = [stringify_version idText] ∧ r.2 = Exit 0)
  ∨ (stdout_of r.1 = [] ∧ stderr_of r.1 ≠ [] ∧ ∃ code, code ≠ 0%Z ∧ r.2 = Exit code).

(** An object all of whose values are strings: the instance variables as
    the data model types them. *)
Definition strings_object (v : json) : Prop :=
  ∃ entries, v = JObj entries ∧ Forall (fun kv => ∃ s, kv.2 = JStr s) entries.

(** ** Concrete parameters for the examples *)

(** [JSON.parse] on the texts [{"k":"v",...}] of flat objects of strings,
    written without white space or escapes, with distinct keys none of which
    starts with a digit (so that the entries are enumerated as written).
    Any other text is answered as if it were not JSON: this reader stands
    for the run-time's at the examples only. *)
Fixpoint scan_string (l : list ascii) : option (string * list ascii) :=
  match l with
  | [] => None
  | c :: rest =>
      if Ascii.eqb c "034" then Some ("", rest)
      else if Ascii.eqb c "092" then None
      else if (nat_of_ascii c <? 32)%nat then None
      else '(s, rest') ← scan_string rest; Some (String c s, rest')
  end.

Definition read_string (l : list ascii) : option (string * list ascii) :=
  match l with
  | c :: rest => if Ascii.eqb c "034" then scan_string rest else None
  | [] => None
  end.

Fixpoint read_members (fuel : nat) (l : list ascii) : option (list (string * json)) :=
  match fuel with
  | O => None
  | S fuel =>
      '(k, l1) ← read_string l;
      match l1 with
      | c :: l2 =>
          if Ascii.eqb c ":" then
            '(v, l3) ← read_string l2;
            match l3 with
            | [c'] => if Ascii.eqb c' "}" then Some [(k, JStr v)] else None
            | c' :: l4 =>
                if Ascii.eqb c' "," then
                  rest ← read_members fuel l4; Some ((k, JStr v) :: rest)
                else None
            | [] => None
            end
          else None
      | [] => None
      end
  end.

Definition plain_key (k : string) : bool :=
  match k with
  | EmptyString => true
  | String c _ => negb ((48 <=? nat_of_ascii c)%nat && (nat_of_ascii c <=? 57)%nat)
  end.

Definition JSON_parse_flat (text : string) : option json :=
  match list_ascii_of_string text with
  | c :: l =>
      if Ascii.eqb c "{" then
        match l with
        | [c'] => if Ascii.eqb c' "}" then Some (JObj []) else None
        | _ =>
            entries ← read_members (length l) l;
            if bool_decide (NoDup entries.*1) && forallb plain_key entries.*1
            then Some (JObj entries) else None
        end
      else None
  | [] => None
  end.

(** The text [{"env":"prod"}]. *)
Definition env_prod_text : string :=
  "{" +:+ quote "env" +:+ ":" +:+ quote "prod" +:+ "}".

Definition example_env (instance_vars : option string) : Env :=
  {| BUILD_TEAM_NAME := Some "t"; BUILD_PIPELINE_NAME := Some "p";
     ATC_EXTERNAL_URL := Some "https://atc.example.com";
     BUILD_PIPELINE_INSTANCE_VARS := instance_vars |}.

Definition example_source : Source :=
  {| concourse_url := Some "https://ci.example.com";
     github_api := "https://api.github.com"; github_token := "secret" |}.

Definition example_params (operation' : string) (events' : option (list string))
    (vars : option json) : Params :=
  {| org := "acme"; repo := "app"; operation := operation'; pipeline := None;
     resource_name := "r"; webhook_token := "tok"; events := events';
     pipeline_instance_vars := vars |}.

Definition example_url : string :=
  "https://ci.example.com/api/v1/teams/t/pipelines/p/resources/r/check/webhook?webhook_token=tok".

(** A registered hook that delivers to [example_url], with one more field
    in its config record. *)
Definition example_hook (id' : Z) (events' : list string) : Hook :=
  {| id := id';
     config := {[ "url" := JStr example_url; "content-type" := JStr "json";
                  "insecure_ssl" := JStr "0" ]};
     hook_events := events' |}.

Definition other_hook : Hook :=
  {| id := 7;
     config := {[ "url" := JStr "https://elsewhere.example.com/hook";
                  "content-type" := JStr "json" ]};
     hook_events := ["push"] |}.

(** A server that lists [hooks], answers a write with the hook [written]
    and accepts every deletion; the clock shows [1700000000000]. *)
Definition example_world (hooks : list Hook) (written : Hook) : World :=
  {| now := 1700000000000;
     list_reply := fun _ => inr hooks;
     write_reply := fun _ => inr written;
     delete_reply := fun _ => inr tt |}.

(** A validator that accepts every document, as [(source, params)]. *)
Definition accept_input (source : Source) (params : Params)
    (input : string) : string + Source * Params :=
  inr (source, params).

(** A validator that accepts no document. *)
Definition reject_input (input : string) : string + Source * Params :=
  inl "invalid".

(** The number of positions of [hay] at which [needle] occurs. *)
Fixpoint occurrences (needle hay : string) : nat :=
  match hay with
  | EmptyString => if String.prefix needle hay then 1 else 0
  | String _ rest => (if String.prefix needle hay then 1 else 0) + occurrences needle rest
  end.

(** ** More parameters for the examples *)

(** The text [{"message":"Not Found"}] and a rejection that carries it. *)
Definition not_found_text : string :=
  "{" +:+ quote "message" +:+ ":" +:+ quote "Not Found" +:+ "}".

Definition not_found : github_error :=
  GithubError "StatusCodeError" (Some 404%Z) not_found_text.

(** A server that rejects the request for the list. *)
Definition unreachable_world : World :=
  {| now := 1700000000000;
     list_reply := fun _ => inl not_found;
     write_reply := fun _ => inl not_found;
     delete_reply := fun _ => inl not_found |}.

(** A server that lists [hooks] and rejects every write. *)
Definition refusing_world (hooks : list Hook) : World :=
  {| now := 1700000000000;
     list_reply := fun _ => inr hooks;
     write_reply := fun _ => inl not_found;
     delete_reply := fun _ => inl not_found |}.

Definition create_params : Params := example_params "create" (Some ["push"]) None.
Definition delete_params : Params := example_params "delete" None None.

(** * Properties *)

(** ** The event list *)

Lemma Set_fold_elem (l acc : list string) (x : string) :
  x ∈ fold_left Set_add l acc ↔ x ∈ acc ∨ x ∈ l.
Proof.
  revert acc. induction l as [|y l IH]; intros acc; simpl.
  - rewrite elem_of_nil. tauto.
  - rewrite IH, elem_of_cons. unfold Set_add. case_bool_decide.
    + split; [tauto|]. intros [?|[->|?]]; auto.
    + rewrite elem_of_app, list_elem_of_singleton. tauto.
Qed.

Lemma Set_fold_NoDup (l acc : list string) :
  NoDup acc → NoDup (fold_left Set_add l acc).
Proof.
  revert acc. induction l as [|y l IH]; intros acc Hacc; simpl; [done|].
  apply IH. unfold Set_add. case_bool_decide; [done|].
  apply NoDup_app. split_and!; [done| |apply NoDup_singleton].
  intros z Hz Hz'. apply list_elem_of_singleton in Hz'. by subst.
Qed.

Lemma Set_of_snoc (l : list string) (x : string) :
  Set_of (l ++ [x]) = Set_add (Set_of l) x.
Proof. unfold Set_of. by rewrite fold_left_app. Qed.

Lemma Set_of_sublist (l : list string) : Set_of l `sublist_of` l.
Proof.
  induction l as [|x l IH] using rev_ind; [done|].
  rewrite Set_of_snoc. unfold Set_add. case_bool_decide.
  - by apply sublist_inserts_r.
  - by apply sublist_app.
Qed.

Lemma Set_of_elem (l : list string) (x : string) : x ∈ Set_of l ↔ x ∈ l.
Proof. unfold Set_of. rewrite Set_fold_elem, elem_of_nil. tauto. Qed.

Lemma Set_of_NoDup (l : list string) : NoDup (Set_of l).
Proof. apply Set_fold_NoDup, NoDup_nil_2. Qed.

(** C7.  The events handed to reconciliation are [normalise_events] of the
    input events.  They have no duplicates and keep the order of first
    insertion (they are a sub-sequence of the list they are made from, with
    the same members, built by adding each element at the end unless it is
    already there); the default [["push"]] is what they are made from when
    the input list is absent or empty, and a non-empty input list is what
    they are made from otherwise. *)
Theorem normalise_events_spec (input_events : option (list string)) :
  (∀ JSON_parse env world read_input input source params,
     input ≠ "" → read_input input = inr (source, params) →
     events params = input_events →
     on_end JSON_parse env world read_input input
     = processWebhook JSON_parse env world source
         (set_events params (normalise_events input_events))
     ∧ events (set_events params (normalise_events input_events))
       = Some (normalise_events input_events))
  ∧ NoDup (normalise_events input_events)
  ∧ normalise_events input_events `sublist_of` default_events input_events
  ∧ (∀ x, x ∈ normalise_events input_events ↔ x ∈ default_events input_events)
  ∧ (∀ l x, Set_of (l ++ [x])
            = if bool_decide (x ∈ Set_of l) then Set_of l else Set_of l ++ [x])
  ∧ (input_events = None ∨ input_events = Some [] →
     default_events input_events = ["push"] ∧ normalise_events input_events = ["push"])
  ∧ (∀ l, input_events = Some l → l ≠ [] →
     default_events input_events = l ∧ normalise_events input_events = Set_of l
     ∧ ∀ x, x ∈ normalise_events input_events ↔ x ∈ l).
Proof.
  unfold normalise_events. split_and!.
  - intros JSON_parse env world read_input input source params Hne Hread <-.
    unfold on_end. destruct (String.eqb_spec input ""); [done|].
    by rewrite Hread.
  - apply Set_of_NoDup.
  - apply Set_of_sublist.
  - intros x. apply Set_of_elem.
  - intros l x. apply Set_of_snoc.
  - intros [->| ->]; done.
  - intros l -> Hl. destruct l as [|y l]; [done|]. simpl.
    split_and!; [done..|]. intros x. apply Set_of_elem.
Qed.

Lemma normalise_events_witness :
  normalise_events (Some ["push"; "pull_request"; "push"]) = ["push"; "pull_request"]
  ∧ normalise_events (Some []) = ["push"]
  ∧ normalise_events None = ["push"].
Proof.
  split_and!.
  - destruct (normalise_events_spec (Some ["push"; "pull_request"; "push"]))
      as (_ & _ & _ & _ & _ & _ & H).
    destruct (H ["push"; "pull_request"; "push"] eq_refl ltac:(discriminate))
      as (_ & -> & _).
    reflexivity.
  - destruct (normalise_events_spec (Some [])) as (_ & _ & _ & _ & _ & H & _).
    apply H. by right.
  - destruct (normalise_events_spec None) as (_ & _ & _ & _ & _ & H & _).
    apply H. by left.
Defined.

(** ** The comparison of event lists *)

Lemma isEqual_sortBy_Permutation (a b : list string) :
  isEqual (sortBy (Some a)) (sortBy (Some b)) = true ↔ a ≡ₚ b.
Proof.
  unfold isEqual, sortBy. simpl. rewrite bool_decide_eq_true. split.
  - intros Heq.
    rewrite <-(merge_sort_Permutation String.le a), Heq.
    apply merge_sort_Permutation.
  - intros Hperm. apply (Sorted_unique String.le).
    + apply (Sorted_merge_sort String.le).
    + apply (Sorted_merge_sort String.le).
    + by rewrite !merge_sort_Permutation.
Qed.

Lemma NoDup_Permutation_elem (a b : list string) :
  NoDup a → NoDup b → (a ≡ₚ b ↔ ∀ x, x ∈ a ↔ x ∈ b).
Proof.
  intros Ha Hb. split.
  - intros Hperm x. by rewrite Hperm.
  - intros Helem. by apply NoDup_Permutation.
Qed.

(** ** The matcher *)


Lemma isMatch_contains (object : gmap string json) (url : string) :
  isMatch object (desired_config url) = true ↔ config_contains object url.
Proof.
  unfold isMatch, config_contains. rewrite forallb_forall. split.
  - intros H k v Hin. apply list_elem_of_In, H in Hin. simpl in Hin.
    destruct (object !! k) as [[]|]; try done.
    apply String.eqb_eq in Hin. by subst.
  - intros H [k v] Hin. apply list_elem_of_In, H in Hin. simpl.
    rewrite Hin. apply String.eqb_refl.
Qed.

Lemma find_Some_first {A} (f : A → bool) (l : list A) (x : A) :
  find f l = Some x ↔
  ∃ before after, l = before ++ x :: after ∧ f x = true
    ∧ Forall (fun y => f y = false) before.
Proof.
  induction l as [|y l IH]; simpl.
  - split; [done|]. intros (before & after & Heq & _). by destruct before.
  - destruct (f y) eqn:Hy.
    + split.
      * intros [= ->]. exists [], l. by split_and!.
      * intros (before & after & Heq & Hx & Hb).
        destruct before as [|z before]; simplify_eq/=; [done|].
        apply Forall_cons_1 in Hb as [Hz _]. congruence.
    + rewrite IH. split.
      * intros (before & after & -> & Hx & Hb).
        exists (y :: before), after. split_and!; [done..|]. by constructor.
      * intros (before & after & Heq & Hx & Hb).
        destruct before as [|z before]; simplify_eq/=; [congruence|].
        apply Forall_cons_1 in Hb as [_ Hb]. by exists before, after.
Qed.

Lemma find_None_Forall {A} (f : A → bool) (l : list A) :
  find f l = None ↔ Forall (fun y => f y = false) l.
Proof.
  induction l as [|y l IH]; simpl.
  - split; [constructor|done].
  - destruct (f y) eqn:Hy.
    + split; [done|]. intros [? _]%Forall_cons_1. congruence.
    + rewrite IH. split; [by constructor|]. by intros [_ ?]%Forall_cons_1.
Qed.

Lemma isMatch_false (object : gmap string json) (url : string) :
  isMatch object (desired_config url) = false ↔ ¬ config_contains object url.
Proof. rewrite <-isMatch_contains. by destruct (isMatch _ _). Qed.

Lemma find_hook_Some (hooks : list Hook) (url : string) (h : Hook) :
  find_hook hooks url = Some h ↔
  ∃ before after, hooks = before ++ h :: after
    ∧ config_contains (config h) url
    ∧ Forall (fun h' => ¬ config_contains (config h') url) before.
Proof.
  unfold find_hook. rewrite find_Some_first.
  do 2 (apply exist_proper; intros ?).
  rewrite isMatch_contains.
  do 2 (apply and_iff_compat_l).
  apply Forall_proper; [|done]. intros h'. apply isMatch_false.
Qed.

Lemma find_hook_None (hooks : list Hook) (url : string) :
  find_hook hooks url = None ↔
  Forall (fun h => ¬ config_contains (config h) url) hooks.
Proof.
  unfold find_hook. rewrite find_None_Forall.
  apply Forall_proper; [|done]. intros h'. apply isMatch_false.
Qed.

(** C4.  The matcher returns the first hook of the list whose config record
    contains every key/value pair of the desired config, and none when no
    hook does; a record that has the desired pairs keeps matching whatever
    other fields it carries, and the record made of exactly the desired
    pairs matches. *)
Theorem find_hook_spec (hooks : list Hook) (url : string) :
  (∀ h, find_hook hooks url = Some h ↔
        ∃ before after, hooks = before ++ h :: after
          ∧ config_contains (config h) url
          ∧ Forall (fun h' => ¬ config_contains (config h') url) before)
  ∧ (find_hook hooks url = None ↔
     Forall (fun h => ¬ config_contains (config h) url) hooks)
  ∧ (is_Some (find_hook hooks url) ↔
     Exists (fun h => config_contains (config h) url) hooks)
  ∧ (∀ object object' : gmap string json,
       object ⊆ object' → config_contains object url → config_contains object' url)
  ∧ config_contains {[ "url" := JStr url; "content-type" := JStr "json" ]} url.
Proof.
  split_and!.
  - intros h. apply find_hook_Some.
  - apply find_hook_None.
  - rewrite <-not_eq_None_Some, find_hook_None, <-Exists_Forall_neg.
    + apply Exists_proper; [|done]. intros h. rewrite <-isMatch_contains.
      destruct (isMatch _ _); naive_solver.
    + intros h. rewrite <-isMatch_contains.
      destruct (isMatch _ _); [right|left]; naive_solver.
  - intros object object' Hsub Hc k v Hin.
    eapply lookup_weaken; [by apply Hc|done].
  - intros k v Hin. unfold desired_config in Hin.
    apply elem_of_cons in Hin as [[= -> ->]|Hin].
    { by rewrite lookup_insert_eq. }
    apply list_elem_of_singleton in Hin as [= -> ->].
    rewrite lookup_insert_ne by done. by rewrite lookup_singleton_eq.
Qed.

Lemma find_hook_witness :
  find_hook [other_hook; example_hook 1 ["push"]; example_hook 2 []] example_url
  = Some (example_hook 1 ["push"]).
Proof.
  destruct (find_hook_spec [other_hook; example_hook 1 ["push"]; example_hook 2 []]
              example_url) as (H & _).
  apply H. exists [other_hook], [example_hook 2 []]. split_and!.
  - reflexivity.
  - apply isMatch_contains. vm_compute. reflexivity.
  - constructor; [|constructor]. rewrite <-isMatch_contains. vm_compute. discriminate.
Defined.

(** ** The URL composer *)

Lemma string_app_assoc (a b c : string) : (a +:+ b) +:+ c = a +:+ (b +:+ c).
Proof.
  induction a as [|x a IH]; [done|].
  change (String x ((a +:+ b) +:+ c) = String x (a +:+ (b +:+ c))). by rewrite IH.
Qed.

Lemma string_app_nil_r (a : string) : a +:+ "" = a.
Proof.
  induction a as [|x a IH]; [done|].
  change (String x (a +:+ "") = String x a). by rewrite IH.
Qed.

Lemma encodeURI_app (a b : string) :
  encodeURI (a +:+ b) = encodeURI a +:+ encodeURI b.
Proof.
  induction a as [|x a IH]; [done|].
  change (encode_byte x +:+ encodeURI (a +:+ b)
          = (encode_byte x +:+ encodeURI a) +:+ encodeURI b).
  by rewrite IH, string_app_assoc.
Qed.


Lemma append_fragments_join (vars : string) (entries : list (string * json)) :
  append_fragments vars entries = vars +:+ join_fragments entries.
Proof.
  unfold append_fragments. revert vars.
  induction entries as [|kv entries IH]; intros vars; simpl.
  - by rewrite string_app_nil_r.
  - by rewrite IH, string_app_assoc.
Qed.

Lemma join_fragments_app (es1 es2 : list (string * json)) :
  join_fragments (es1 ++ es2) = join_fragments es1 +:+ join_fragments es2.
Proof.
  induction es1 as [|kv es1 IH]; simpl; [done|].
  by rewrite IH, string_app_assoc.
Qed.

Lemma truthy_str_Some (s : string) : s ≠ "" → truthy_str (Some s) = true.
Proof. intros Hs. simpl. by destruct (String.eqb_spec s ""). Qed.

Lemma nat_of_ascii_bound (c : ascii) : (nat_of_ascii c < 256)%nat.
Proof.
  destruct c as [[] [] [] [] [] [] [] []]; vm_compute; lia.
Qed.

Lemma hex_digit_unescaped (n : nat) : (n < 16)%nat → uri_unescaped (hex_digit n) = true.
Proof.
  intros Hn. do 16 (destruct n as [|n]; [reflexivity|]). lia.
Qed.


Lemma encodeURI_cons (c : ascii) (s : string) :
  encodeURI (String c s)
  = if uri_unescaped c then String c (encodeURI s)
    else String "%" (String (hex_digit (nat_of_ascii c / 16))
                       (String (hex_digit (nat_of_ascii c mod 16)) (encodeURI s))).
Proof.
  change (encodeURI (String c s)) with (encode_byte c +:+ encodeURI s).
  unfold encode_byte. by destruct (uri_unescaped c).
Qed.

Lemma encodeURI_chars (s : string) (c : ascii) :
  c ∈ list_ascii_of_string (encodeURI s) → uri_unescaped c = true ∨ c = "%"%char.
Proof.
  revert c. induction s as [|x s IH]; intros c; [by intros ?%elem_of_nil|].
  rewrite encodeURI_cons. pose proof (nat_of_ascii_bound x) as Hx.
  destruct (uri_unescaped x) eqn:Hsafe; cbn [list_ascii_of_string].
  - intros [->|Hc]%elem_of_cons; [by left|by apply IH].
  - intros [->|[->|[->|Hc]%elem_of_cons]%elem_of_cons]%elem_of_cons.
    + by right.
    + left. apply hex_digit_unescaped. apply Nat.Div0.div_lt_upper_bound. lia.
    + left. apply hex_digit_unescaped. apply Nat.mod_upper_bound. lia.
    + by apply IH.
Qed.




Lemma url_tail_vars (env : Env) (params : Params) (vars : string) :
  url_tail env params vars = url_tail env params "" +:+ vars.
Proof. unfold url_tail. by rewrite !string_app_assoc. Qed.

Lemma buildUrl_base (JSON_parse : string → option json) (env : Env)
    (source : Source) (params : Params) (vars : string) :
  buildInstanceVariables JSON_parse env params = Normal vars →
  buildUrl JSON_parse env source params
  = Normal (encodeURI (base_url env source +:+ url_tail env params "") +:+ encodeURI vars).
Proof.
  intros Hvars. unfold buildUrl, base_url. rewrite Hvars.
  rewrite <-encodeURI_app, string_app_assoc, <-url_tail_vars.
  by destruct (truthy_str (concourse_url source)).
Qed.

Lemma encodeURI_fragment (k : string) (v : json) :
  encodeURI (fragment (k, v))
  = "&vars." +:+ encodeURI k +:+ "=%22" +:+ encodeURI (ToString v) +:+ "%22".
Proof.
  unfold fragment. simpl. rewrite !encodeURI_app.
  change (encodeURI "&vars.") with "&vars.".
  change (encodeURI "=") with "=".
  change (encodeURI dquote) with "%22".
  by rewrite ?string_app_assoc.
Qed.

(** C5, as the script has it.  With a JSON object in
    [BUILD_PIPELINE_INSTANCE_VARS] and an object in
    [params.pipeline_instance_vars], the fragments are those of the entries
    of the first followed by those of the entries of the second, none
    merged or dropped; the composed URL ends with the percent-encoding of
    these fragments, in which each double quote reads [%22]: when both
    objects are [{"env":"prod"}] it ends with
    [&vars.env=%22prod%22&vars.env=%22prod%22]. *)
Theorem instance_variables_concatenated (JSON_parse : string → option json)
    (env : Env) (source : Source) (params : Params) (text : string)
    (es1 es2 : list (string * json)) :
  BUILD_PIPELINE_INSTANCE_VARS env = Some text →
  text ≠ "" →
  JSON_parse text = Some (JObj es1) →
  pipeline_instance_vars params = Some (JObj es2) →
  buildInstanceVariables JSON_parse env params
  = Normal (join_fragments es1 +:+ join_fragments es2)
  ∧ join_fragments es1 +:+ join_fragments es2 = join_fragments (es1 ++ es2)
  ∧ buildUrl JSON_parse env source params
    = Normal (encodeURI (base_url env source +:+ url_tail env params "")
              +:+ encodeURI (join_fragments es1) +:+ encodeURI (join_fragments es2))
  ∧ (∀ k v, encodeURI (fragment (k, v))
            = "&vars." +:+ encodeURI k +:+ "=%22" +:+ encodeURI (ToString v) +:+ "%22")
  ∧ (es1 = [("env", JStr "prod")] → es2 = [("env", JStr "prod")] →
     buildUrl JSON_parse env source params
     = Normal (encodeURI (base_url env source +:+ url_tail env params "")
               +:+ "&vars.env=%22prod%22" +:+ "&vars.env=%22prod%22")).
Proof.
  intros Henv Hne Hparse Hpar.
  assert (buildInstanceVariables JSON_parse env params
          = Normal (join_fragments es1 +:+ join_fragments es2)) as Hvars.
  { unfold buildInstanceVariables, ambient_fragments, param_fragments, parse.
    rewrite Henv, truthy_str_Some by done. simpl. rewrite Hparse, Hpar. simpl.
    rewrite !append_fragments_join. reflexivity. }
  split_and!.
  - done.
  - by rewrite join_fragments_app.
  - by rewrite (buildUrl_base _ _ _ _ _ Hvars), (encodeURI_app (join_fragments es1)).
  - apply encodeURI_fragment.
  - intros -> ->.
    by rewrite (buildUrl_base _ _ _ _ _ Hvars), (encodeURI_app (join_fragments _)).
Qed.

Lemma instance_variables_concatenated_witness :
  buildInstanceVariables JSON_parse_flat (example_env (Some env_prod_text))
    (example_params "create" None (Some (JObj [("env", JStr "prod")])))
  = Normal (("&vars.env=" +:+ quote "prod") +:+ ("&vars.env=" +:+ quote "prod"))
  ∧ buildUrl JSON_parse_flat (example_env (Some env_prod_text)) example_source
      (example_params "create" None (Some (JObj [("env", JStr "prod")])))
    = Normal (example_url +:+ "&vars.env=%22prod%22" +:+ "&vars.env=%22prod%22").
Proof.
  destruct (instance_variables_concatenated JSON_parse_flat
              (example_env (Some env_prod_text)) example_source
              (example_params "create" None (Some (JObj [("env", JStr "prod")])))
              env_prod_text [("env", JStr "prod")] [("env", JStr "prod")]
              eq_refl ltac:(discriminate) eq_refl eq_refl)
    as (H1 & _ & _ & _ & H2).
  split.
  - rewrite H1. reflexivity.
  - rewrite H2 by reflexivity. reflexivity.
Defined.

(** C5, as stated, fails: at the example the text [&vars.env="prod"], with
    its double quotes, occurs nowhere in the composed URL. *)
Lemma duplicate_fragment_counterexample :
  fragment ("env", JStr "prod") = "&vars.env=" +:+ quote "prod"
  ∧ match buildUrl JSON_parse_flat (example_env (Some env_prod_text)) example_source
            (example_params "create" None (Some (JObj [("env", JStr "prod")]))) with
    | Normal url => occurrences (fragment ("env", JStr "prod")) url = 0%nat
                    ∧ occurrences "&vars.env=%22prod%22" url = 2%nat
    | Throw _ => False
    end.
Proof. split; [reflexivity|]. vm_compute. split; reflexivity. Qed.

(** ** Reconciliation *)

Ltac unfold_script :=
  unfold processWebhook, getExistingHooks, createWebhook, updateWebhook,
    deleteWebhook, callGithub, emit, catch, lift, log, console_log,
    process_exit, throw, parse.

Ltac simp_script := cbn -[String.append pretty isEqual sortBy find_hook].

(** One case distinction, on the first test the script makes. *)
Ltac script_step :=
  match goal with
  | |- context [list_reply ?w ?r] => destruct (list_reply w r) as [[? ? ?]|?] eqn:?
  | |- context [String.eqb ?a ?b] => destruct (String.eqb a b) eqn:?
  | |- context [find_hook ?l ?u] => destruct (find_hook l u) eqn:?
  | |- context [isEqual ?a ?b] => destruct (isEqual a b) eqn:?
  | |- context [write_reply ?w ?r] => destruct (write_reply w r) as [[? ? ?]|?] eqn:?
  | |- context [delete_reply ?w ?r] => destruct (delete_reply w r) as [[? ? ?]|[]] eqn:?
  | |- context [match ?f ?text with Some _ => _ | None => _ end] =>
      destruct (f text) eqn:?
  | |- context [bool_decide ?P] => case_bool_decide
  end.

Ltac script_cases := simp_script; repeat (script_step; simp_script).

Section Reconciliation.
Variable JSON_parse : string → option json.
Variable env : Env.
Variable world : World.
Variable read_input : string → string + Source * Params.

Local Abbreviation script := (on_end JSON_parse env world read_input).
Local Abbreviation reconcile := (processWebhook JSON_parse env world).

Lemma operation_other (params : Params) :
  operation params ≠ "create" → operation params ≠ "delete" →
  String.eqb (operation params) "create" = false
  ∧ String.eqb (operation params) "delete" = false.
Proof. intros H1 H2. by split; apply String.eqb_neq. Qed.

(** C10.  With an operation that is neither ["create"] nor ["delete"],
    once the callback URL is composed the script issues the request for
    the list of hooks and nothing else: no write, nothing on the standard
    output; when the list arrives the script returns without an error,
    having logged only the two locations. *)
Theorem other_operation_is_silent (source : Source) (params : Params) (url : string) :
  operation params ≠ "create" →
  operation params ≠ "delete" →
  buildUrl JSON_parse env source params = Normal url →
  calls_of (reconcile source params).1 = [list_request source params]
  ∧ writes_of (reconcile source params).1 = []
  ∧ stdout_of (reconcile source params).1 = []
  ∧ (∀ hooks, list_reply world (list_request source params) = inr hooks →
     reconcile source params
     = ([Stderr (Locations (hooks_endpoint source params) url);
         Call (list_request source params)], Ret tt)).
Proof.
  intros Hc Hd Hurl. destruct (operation_other params Hc Hd) as [Hc' Hd'].
  unfold_script. rewrite Hurl, Hc', Hd'. fold (list_request source params).
  script_cases; split_and!; try done; intros; simplify_eq.
Qed.

Lemma pretty_N_go_length (x : N) (s : string) :
  (String.length s ≤ String.length (pretty_N_go x s))%nat.
Proof.
  revert s. induction (N.lt_wf_0 x) as [x _ IH]; intros s.
  assert (x = 0 ∨ 0 < x)%N as [->|Hx] by lia; [by rewrite pretty_N_go_0|].
  rewrite pretty_N_go_step by done.
  etrans; [|apply IH; by apply N.div_lt]. simpl. lia.
Qed.

Lemma pretty_Z_nonempty (z : Z) : pretty z ≠ "".
Proof.
  assert (∀ p : positive, pretty p ≠ "") as Hpos.
  { intros p Hp. unfold pretty, pretty_positive, pretty, pretty_N in Hp.
    case_decide; [done|].
    rewrite pretty_N_go_step in Hp by lia.
    pose proof (pretty_N_go_length (N.pos p `div` 10)
                  (String (pretty_N_char (N.pos p `mod` 10)) "")) as Hlen.
    rewrite Hp in Hlen. simpl in Hlen. lia. }
  unfold pretty, pretty_Z. destruct z as [|p|p]; [done|apply Hpos|done].
Qed.

Lemma sortBy_default (o : option (list string)) : sortBy o = sortBy (Some (default [] o)).
Proof. done. Qed.

Lemma events_equal_Permutation (existing : list string) (desired : option (list string)) :
  isEqual (sortBy (Some existing)) (sortBy desired) = true
  ↔ existing ≡ₚ default [] desired.
Proof. rewrite sortBy_default. apply isEqual_sortBy_Permutation. Qed.

Lemma events_differ_Permutation (existing : list string) (desired : option (list string)) :
  isEqual (sortBy (Some existing)) (sortBy desired) = false
  ↔ ¬ existing ≡ₚ default [] desired.
Proof. rewrite <-events_equal_Permutation. by destruct (isEqual _ _). Qed.

(** C2.  Under the delete intent, once the callback URL is composed and the
    list of hooks has arrived: when no hook matches, the script issues no
    write, prints the result whose id is the clock's reading, a non-empty
    decimal numeral, and exits with status 0; when a hook matches, the one
    write it issues is the DELETE addressed to that hook's id, and the
    hook's id is the result once the deletion is accepted. *)
Theorem delete_reconciliation (source : Source) (params : Params) (url : string)
    (hooks : list Hook) :
  operation params = "delete" →
  buildUrl JSON_parse env source params = Normal url →
  list_reply world (list_request source params) = inr hooks →
  (find_hook hooks url = None →
     reconcile source params
     = ([Stderr (Locations (hooks_endpoint source params) url);
         Call (list_request source params);
         Stderr DoesNotExist;
         Stdout (stringify_version (pretty (now world)))], Exit 0)
     ∧ writes_of (reconcile source params).1 = []
     ∧ pretty (now world) ≠ "")
  ∧ (∀ h, find_hook hooks url = Some h →
       calls_of (reconcile source params).1
       = [list_request source params; delete_request source params h]
       ∧ writes_of (reconcile source params).1 = [delete_request source params h]
       ∧ (delete_reply world (delete_request source params h) = inr tt →
          reconcile source params
          = ([Stderr (Locations (hooks_endpoint source params) url);
              Call (list_request source params);
              Call (delete_request source params h);
              Stderr Deleted;
              Stdout (stringify_version (pretty (id h)))], Exit 0))).
Proof.
  intros Hop Hurl Hlist. split.
  - intros Hfind. unfold_script. rewrite Hurl, Hop.
    fold (list_request source params). simp_script.
    rewrite Hlist. simp_script. rewrite Hfind.
    split_and!; [done..|apply pretty_Z_nonempty].
  - intros h Hfind. unfold_script. rewrite Hurl, Hop.
    fold (list_request source params). simp_script.
    rewrite Hlist. simp_script. rewrite Hfind.
    fold (delete_request source params h).
    script_cases; split_and!; try done; intros; simplify_eq.
Qed.

(** C1, as the script has it.  Under the create intent, once the callback
    URL is composed and the list of hooks has arrived: when no hook matches,
    the POST of the desired hook is issued; when a hook matches and its
    events are not a rearrangement of the desired events, the PATCH
    addressed to that hook's id is issued with the desired body; when a
    hook matches and its events are a rearrangement of the desired events,
    no write is issued, the hook's id is printed and the script exits with
    status 0. *)
Theorem create_reconciliation (source : Source) (params : Params) (url : string)
    (hooks : list Hook) :
  operation params = "create" →
  buildUrl JSON_parse env source params = Normal url →
  list_reply world (list_request source params) = inr hooks →
  (find_hook hooks url = None →
     calls_of (reconcile source params).1
     = [list_request source params; create_request source params url])
  ∧ (∀ h, find_hook hooks url = Some h →
       ¬ hook_events h ≡ₚ default [] (events params) →
       calls_of (reconcile source params).1
       = [list_request source params; update_request source params url h])
  ∧ (∀ h, find_hook hooks url = Some h →
       hook_events h ≡ₚ default [] (events params) →
       reconcile source params
       = ([Stderr (Locations (hooks_endpoint source params) url);
           Call (list_request source params);
           Stderr AlreadyExists;
           Stdout (stringify_version (pretty (id h)))], Exit 0)
       ∧ writes_of (reconcile source params).1 = []).
Proof.
  intros Hop Hurl Hlist. split_and!.
  - intros Hfind. unfold_script. rewrite Hurl, Hop.
    fold (list_request source params). simp_script.
    rewrite Hlist. simp_script. rewrite Hfind.
    fold (create_request source params url).
    script_cases; done.
  - intros h Hfind Hdiff%events_differ_Permutation. unfold_script. rewrite Hurl, Hop.
    fold (list_request source params). simp_script.
    rewrite Hlist. simp_script. rewrite Hfind.
    simp_script. rewrite Hdiff.
    fold (update_request source params url h).
    script_cases; done.
  - intros h Hfind Hsame%events_equal_Permutation. unfold_script. rewrite Hurl, Hop.
    fold (list_request source params). simp_script.
    rewrite Hlist. simp_script. rewrite Hfind.
    simp_script. rewrite Hsame. done.
Qed.

(** C3, as the script has it.  A matched hook's events and the desired
    events are judged equal exactly when one list is a rearrangement of the
    other; for lists without duplicates this is equality of the sets they
    denote; ["push","pull_request"] against ["pull_request","push"] is
    judged equal, and a matched hook whose events are a rearrangement of the
    desired ones is left alone: no write, its id printed. *)
Theorem events_compared_up_to_order :
  (∀ a b : list string, isEqual (sortBy (Some a)) (sortBy (Some b)) = true ↔ a ≡ₚ b)
  ∧ (∀ a b : list string, NoDup a → NoDup b →
       (isEqual (sortBy (Some a)) (sortBy (Some b)) = true ↔ ∀ x, x ∈ a ↔ x ∈ b))
  ∧ isEqual (sortBy (Some ["push"; "pull_request"]))
            (sortBy (Some ["pull_request"; "push"])) = true
  ∧ (∀ source params url hooks h,
       operation params = "create" →
       buildUrl JSON_parse env source params = Normal url →
       list_reply world (list_request source params) = inr hooks →
       find_hook hooks url = Some h →
       hook_events h ≡ₚ default [] (events params) →
       writes_of (reconcile source params).1 = []
       ∧ stdout_of (reconcile source params).1 = [stringify_version (pretty (id h))]
       ∧ (reconcile source params).2 = Exit 0).
Proof.
  split_and!.
  - apply isEqual_sortBy_Permutation.
  - intros a b Ha Hb. rewrite isEqual_sortBy_Permutation.
    by apply NoDup_Permutation_elem.
  - apply isEqual_sortBy_Permutation.
    apply (Permutation_swap "pull_request" "push" []).
  - intros source params url hooks h Hop Hurl Hlist Hfind Hsame%events_equal_Permutation.
    unfold_script. rewrite Hurl, Hop.
    fold (list_request source params). simp_script.
    rewrite Hlist. simp_script. rewrite Hfind.
    simp_script. rewrite Hsame. done.
Qed.

(** C8.  When [BUILD_PIPELINE_INSTANCE_VARS] is set (to a non-empty string,
    which is what the script tests) and is not JSON text, the composition
    of the URL throws, reconciliation ends with that error before any
    effect, and whatever the input no request is issued and nothing is
    printed on the standard output. *)
Theorem malformed_instance_vars_stop_the_run (text : string) :
  BUILD_PIPELINE_INSTANCE_VARS env = Some text →
  text ≠ "" →
  JSON_parse text = None →
  (∀ source params,
     buildUrl JSON_parse env source params = Throw (ErrorOf (SyntaxError text))
     ∧ reconcile source params = ([], Raise (ErrorOf (SyntaxError text))))
  ∧ (∀ input,
       calls_of (script input).1 = []
       ∧ stdout_of (script input).1 = []
       ∧ (∀ source params,
            input ≠ "" → read_input input = inr (source, params) →
            script input = ([], Raise (ErrorOf (SyntaxError text))))).
Proof.
  intros Henv Hne Hparse.
  assert (∀ source params,
            buildUrl JSON_parse env source params = Throw (ErrorOf (SyntaxError text)))
    as Hurl.
  { intros source params.
    unfold buildUrl, buildInstanceVariables, ambient_fragments, parse.
    rewrite Henv, truthy_str_Some by done. simpl. by rewrite Hparse. }
  assert (∀ source params,
            reconcile source params = ([], Raise (ErrorOf (SyntaxError text))))
    as Hrun.
  { intros source params. unfold processWebhook. by rewrite Hurl. }
  split; [by intros; split|].
  intros input. unfold on_end.
  destruct (String.eqb_spec input "") as [->|Hinput]; [done|].
  destruct (read_input input) as [message|[source params]].
  - done.
  - rewrite Hrun. split_and!; [done..|]. by intros ? ? _ [= <- <-].
Qed.


Ltac classify_run :=
  first
    [ left; eexists; split_and!;
      [reflexivity | apply pretty_Z_nonempty | reflexivity | reflexivity]
    | right; left; split_and!; [reflexivity | reflexivity | discriminate]
    | right; right; right; split; [reflexivity | eexists; reflexivity] ].

(** C9, as the script has it.  A run prints at most one result.  Either it
    prints exactly one, with a non-empty id, as its last effect and exits
    with status 0; or it prints none and exits with status 1 after a
    diagnostic; or it prints none and returns without exiting, which
    happens only on an empty input or on a validated input whose operation
    is neither ["create"] nor ["delete"]; or it prints none and ends with an
    error that nothing catches. *)
Theorem run_outcomes (input : string) :
  (∃ z : Z, stdout_of (script input).1 = [stringify_version (pretty z)]
            ∧ pretty z ≠ ""
            ∧ (script input).2 = Exit 0
            ∧ last (script input).1 = Some (Stdout (stringify_version (pretty z))))
  ∨ (stdout_of (script input).1 = [] ∧ (script input).2 = Exit 1
     ∧ stderr_of (script input).1 ≠ [])
  ∨ (stdout_of (script input).1 = [] ∧ (script input).2 = Ret tt
     ∧ (input = ""
        ∨ ∃ source params, read_input input = inr (source, params)
            ∧ operation params ≠ "create" ∧ operation params ≠ "delete"))
  ∨ (stdout_of (script input).1 = [] ∧ ∃ e, (script input).2 = Raise e).
Proof.
  unfold on_end.
  destruct (String.eqb_spec input "") as [->|Hinput].
  { right; right; left. split_and!; [done..|by left]. }
  destruct (read_input input) as [message|[source params]] eqn:Hread.
  { right; left. done. }
  unfold_script.
  destruct (buildUrl JSON_parse env source _) as [url|e] eqn:Hurl.
  2:{ right; right; right. split; [done|by eexists]. }
  script_cases; try classify_run.
  right; right; left. split_and!; [done..|]. right.
  exists source, params. split_and!; [done|by apply String.eqb_neq..].
Qed.
End Reconciliation.

(** ** The properties at the examples *)

Lemma other_operation_is_silent_witness :
  processWebhook JSON_parse_flat (example_env None)
    (example_world [example_hook 1 ["push"]] other_hook)
    example_source (example_params "check" None None)
  = ([Stderr (Locations "https://api.github.com/repos/acme/app/hooks" example_url);
      Call {| uri := "https://api.github.com/repos/acme/app/hooks"; meth := GET;
              token := "secret"; body := None |}], Ret tt).
Proof.
  assert ("check" ≠ "create") as Hc by discriminate.
  assert ("check" ≠ "delete") as Hd by discriminate.
  destruct (other_operation_is_silent JSON_parse_flat (example_env None)
              (example_world [example_hook 1 ["push"]] other_hook)
              example_source (example_params "check" None None) example_url
              Hc Hd eq_refl)
    as (_ & _ & _ & H).
  exact (H [example_hook 1 ["push"]] eq_refl).
Defined.

Lemma delete_reconciliation_witness :
  processWebhook JSON_parse_flat (example_env None) (example_world [other_hook] other_hook)
    example_source (example_params "delete" None None)
  = ([Stderr (Locations "https://api.github.com/repos/acme/app/hooks" example_url);
      Call (list_request example_source (example_params "delete" None None));
      Stderr DoesNotExist;
      Stdout (stringify_version "1700000000000")], Exit 0).
Proof.
  destruct (delete_reconciliation JSON_parse_flat (example_env None)
              (example_world [other_hook] other_hook)
              example_source (example_params "delete" None None) example_url
              [other_hook] eq_refl eq_refl eq_refl)
    as (H & _).
  destruct (H eq_refl) as (-> & _). reflexivity.
Defined.

Lemma create_reconciliation_witness :
  calls_of (processWebhook JSON_parse_flat (example_env None)
              (example_world [other_hook] (example_hook 9 ["push"]))
              example_source (example_params "create" (Some ["push"]) None)).1
  = [list_request example_source (example_params "create" (Some ["push"]) None);
     create_request example_source (example_params "create" (Some ["push"]) None)
       example_url].
Proof.
  destruct (create_reconciliation JSON_parse_flat (example_env None)
              (example_world [other_hook] (example_hook 9 ["push"]))
              example_source (example_params "create" (Some ["push"]) None) example_url
              [other_hook] eq_refl eq_refl eq_refl)
    as (H & _).
  exact (H eq_refl).
Defined.

(** C1, as stated, fails: a matched hook whose events list ["push"] twice
    denotes the same set as the desired ["push"], yet the PATCH is issued. *)
Lemma create_same_set_counterexample :
  find_hook [example_hook 1 ["push"; "push"]] example_url
  = Some (example_hook 1 ["push"; "push"])
  ∧ (∀ x, x ∈ hook_events (example_hook 1 ["push"; "push"]) ↔ x ∈ ["push"])
  ∧ writes_of (processWebhook JSON_parse_flat (example_env None)
                 (example_world [example_hook 1 ["push"; "push"]]
                                (example_hook 1 ["push"]))
                 example_source (example_params "create" (Some ["push"]) None)).1
    = [update_request example_source (example_params "create" (Some ["push"]) None)
         example_url (example_hook 1 ["push"; "push"])].
Proof.
  split_and!.
  - vm_compute. reflexivity.
  - intros x. simpl. rewrite !elem_of_cons, elem_of_nil. tauto.
  - vm_compute. reflexivity.
Qed.

Lemma events_compared_up_to_order_witness :
  writes_of (processWebhook JSON_parse_flat (example_env None)
               (example_world [example_hook 1 ["push"; "pull_request"]] other_hook)
               example_source
               (example_params "create" (Some ["pull_request"; "push"]) None)).1 = []
  ∧ stdout_of (processWebhook JSON_parse_flat (example_env None)
                 (example_world [example_hook 1 ["push"; "pull_request"]] other_hook)
                 example_source
                 (example_params "create" (Some ["pull_request"; "push"]) None)).1
    = [stringify_version "1"].
Proof.
  destruct (events_compared_up_to_order JSON_parse_flat (example_env None)
              (example_world [example_hook 1 ["push"; "pull_request"]] other_hook))
    as (_ & _ & _ & H).
  destruct (H example_source
              (example_params "create" (Some ["pull_request"; "push"]) None)
              example_url [example_hook 1 ["push"; "pull_request"]]
              (example_hook 1 ["push"; "pull_request"])
              eq_refl eq_refl eq_refl eq_refl
              (Permutation_swap "pull_request" "push" []))
    as (H1 & H2 & _).
  split; [exact H1|]. rewrite H2. reflexivity.
Defined.

(** C3, as stated, fails: two lists that denote the same set are judged
    different when an element is repeated in one of them. *)
Lemma events_same_set_counterexample :
  ¬ (∀ a b : list string,
       (∀ x, x ∈ a ↔ x ∈ b) → isEqual (sortBy (Some a)) (sortBy (Some b)) = true).
Proof.
  intros H. specialize (H ["push"; "push"] ["push"]).
  assert (isEqual (sortBy (Some ["push"; "push"])) (sortBy (Some ["push"])) = false)
    as Hne by (vm_compute; reflexivity).
  rewrite H in Hne; [discriminate|].
  intros x. rewrite !elem_of_cons, elem_of_nil. tauto.
Qed.

Lemma malformed_instance_vars_witness :
  processWebhook JSON_parse_flat (example_env (Some "{oops"))
    (example_world [] other_hook) example_source
    (example_params "create" None None)
  = ([], Raise (ErrorOf (SyntaxError "{oops"))).
Proof.
  assert ("{oops" ≠ "") as Hne by discriminate.
  destruct (malformed_instance_vars_stop_the_run JSON_parse_flat
              (example_env (Some "{oops")) (example_world [] other_hook) reject_input
              "{oops" eq_refl Hne eq_refl)
    as (H & _).
  apply H.
Defined.

(** C9, as stated, fails: on an empty input, and on an operation that is
    neither ["create"] nor ["delete"], the run prints nothing and does not
    exit with a failing status. *)
Lemma quiet_success_counterexample :
  ¬ emits_or_fails (on_end JSON_parse_flat (example_env None)
                      (example_world [] other_hook) reject_input "")
  ∧ on_end JSON_parse_flat (example_env None) (example_world [] other_hook)
      reject_input ""
    = ([Stderr EmptyInput], Ret tt)
  ∧ ¬ emits_or_fails
        (on_end JSON_parse_flat (example_env None) (example_world [] other_hook)
           (accept_input example_source (example_params "check" None None)) "{}").
Proof.
  split_and!.
  - intros [(idText & _ & Hout & _)|(_ & _ & code & _ & Hend)]; discriminate.
  - reflexivity.
  - intros [(idText & _ & Hout & _)|(_ & _ & code & _ & Hend)]; [discriminate|].
    vm_compute in Hend. discriminate.
Qed.

(** * Further properties of the script *)

Set Warnings "-clear-no-such-hyp".

(** ** What a reconciliation may send *)

Ltac script_facts :=
  repeat match goal with
    | H : String.eqb _ _ = true |- _ => apply String.eqb_eq in H
    | H : String.eqb _ _ = false |- _ => apply String.eqb_neq in H
    | H : isEqual (sortBy (Some _)) (sortBy _) = false |- _ =>
        apply events_differ_Permutation in H
    | H : isEqual (sortBy (Some _)) (sortBy _) = true |- _ =>
        apply events_equal_Permutation in H
    end.

Section Runs.
Variable JSON_parse : string → option json.
Variable env : Env.
Variable world : World.
Variable read_input : string → string + Source * Params.

Local Abbreviation script := (on_end JSON_parse env world read_input).
Local Abbreviation reconcile := (processWebhook JSON_parse env world).

(** A reconciliation sends nothing, or the request for the list first and
    then at most one more request, which is a write: there is never a
    second write, and never a write before the list. *)
Theorem list_first_then_one_write (source : Source) (params : Params) :
  (calls_of (reconcile source params).1 = []
   ∨ calls_of (reconcile source params).1 = [list_request source params]
   ∨ ∃ w, calls_of (reconcile source params).1 = [list_request source params; w]
          ∧ is_write w = true)
  ∧ (length (writes_of (reconcile source params).1) ≤ 1)%nat.
Proof.
  unfold_script.
  destruct (buildUrl JSON_parse env source params) as [url|e].
  2:{ simp_script. split; [by left|simpl; lia]. }
  fold (list_request source params).
  script_cases; (split; [|simpl; lia]);
    first [by right; left | right; right; eexists; split; reflexivity].
Qed.

Lemma write_cases (source : Source) (params : Params) (r : request) :
  r ∈ writes_of (reconcile source params).1 →
  ∃ url hooks,
    buildUrl JSON_parse env source params = Normal url
    ∧ list_reply world (list_request source params) = inr hooks
    ∧ ((operation params = "create" ∧ find_hook hooks url = None
        ∧ r = create_request source params url)
       ∨ (∃ h, operation params = "create" ∧ find_hook hooks url = Some h
               ∧ ¬ hook_events h ≡ₚ default [] (events params)
               ∧ r = update_request source params url h)
       ∨ (∃ h, operation params = "delete" ∧ find_hook hooks url = Some h
               ∧ r = delete_request source params h)).
Proof.
  unfold_script.
  destruct (buildUrl JSON_parse env source params) as [url|e].
  2:{ simp_script. by intros ?%elem_of_nil. }
  fold (list_request source params).
  script_cases; intros Hr; cbn in Hr;
    try (by apply elem_of_nil in Hr);
    apply list_elem_of_singleton in Hr; subst r; script_facts;
    do 2 eexists; (split; [reflexivity|]); (split; [reflexivity|]).
  all: first
    [ by left
    | right; left; eexists; by split_and!
    | right; right; eexists; by split_and! ].
Qed.

(** Every write is justified by the matcher on the list that arrived: a
    POST only under the create intent when no hook matches; a PATCH only
    under the create intent, addressed to the first matching hook, when its
    events are not a rearrangement of the desired ones; a DELETE only under
    the delete intent, addressed to the first matching hook. *)
Theorem writes_are_justified (source : Source) (params : Params) (r : request) :
  r ∈ writes_of (reconcile source params).1 →
  ∃ url hooks,
    buildUrl JSON_parse env source params = Normal url
    ∧ list_reply world (list_request source params) = inr hooks
    ∧ ((operation params = "create" ∧ find_hook hooks url = None
        ∧ r = create_request source params url)
       ∨ (∃ h, operation params = "create" ∧ find_hook hooks url = Some h
               ∧ ¬ hook_events h ≡ₚ default [] (events params)
               ∧ r = update_request source params url h)
       ∨ (∃ h, operation params = "delete" ∧ find_hook hooks url = Some h
               ∧ r = delete_request source params h)).
Proof. apply write_cases. Qed.


(** A write never targets a hook that was not listed or whose config does
    not contain the desired pairs: the id in the address of a PATCH or a
    DELETE is the id of a hook of the list that arrived, whose config
    contains the URL that [buildUrl] composed for this run and the content
    type ["json"], and before which no listed hook does. *)
Theorem addressed_hook_is_listed_and_matches (source : Source) (params : Params)
    (r : request) :
  r ∈ writes_of (reconcile source params).1 →
  meth r ≠ POST →
  ∃ url before h after,
    buildUrl JSON_parse env source params = Normal url
    ∧ list_reply world (list_request source params) = inr (before ++ h :: after)
    ∧ config (h) !! "url" = Some (JStr url)
    ∧ config (h) !! "content-type" = Some (JStr "json")
    ∧ Forall (fun h' => ¬ config_contains (config h') url) before
    ∧ uri r = hooks_endpoint source params +:+ "/" +:+ pretty (id h).
Proof.
  intros Hr Hmeth.
  destruct (write_cases source params r Hr)
    as (url & hooks & Hurl & Hlist &
        [(_ & _ & ->)|[(h & _ & Hfind & _ & ->)|(h & _ & Hfind & ->)]]);
    [done|..];
    apply find_hook_Some in Hfind as (before & after & -> & Hc & Hb);
    exists url, before, h, after; split_and!; try done;
    apply Hc; unfold desired_config; rewrite !elem_of_cons; auto.
Qed.

(** ** Failing and accepted calls *)

Ltac same_reply :=
  repeat match goal with
    | H : ?f ?w ?r = _, H' : ?f ?w ?r = _ |- _ => rewrite H in H'; simplify_eq
    end.

(** When the request for the list fails, the reconciliation writes nothing
    and prints nothing.  If the error's payload is JSON text the failure is
    logged, with the hint when the status is 404, and the process exits with
    status 1; if it is not, nothing about the failure is logged and the
    parse error propagates uncaught. *)
Theorem failed_list_call (source : Source) (params : Params) (url : string)
    (name : string) (statusCode : option Z) (error : string) :
  buildUrl JSON_parse env source params = Normal url →
  list_reply world (list_request source params)
  = inl (GithubError name statusCode error) →
  writes_of (reconcile source params).1 = []
  ∧ stdout_of (reconcile source params).1 = []
  ∧ (∀ message, JSON_parse error = Some message →
       reconcile source params
       = ([Stderr (Locations (hooks_endpoint source params) url);
           Call (list_request source params);
           Stderr (CallFailed name statusCode message)]
          ++ (if bool_decide (statusCode = Some 404%Z)
              then [Stderr (NotFoundHint (hooks_endpoint source params))] else []),
          Exit 1))
  ∧ (JSON_parse error = None →
       reconcile source params
       = ([Stderr (Locations (hooks_endpoint source params) url);
           Call (list_request source params)],
          Raise (SyntaxError error))).
Proof.
  intros Hurl Hlist. unfold_script. rewrite Hurl.
  fold (list_request source params). simp_script. rewrite Hlist.
  script_cases; split_and!; try done; intros; simplify_eq; done.
Qed.

(** A POST or PATCH that is rejected always ends the run with status 1 and
    no result: the rejection is logged when its payload is JSON text, and
    otherwise the parse error is caught and its stack logged.  A DELETE that
    is rejected prints no result either, but only exits with status 1 when
    the payload is JSON text: otherwise the parse error is not caught. *)
Theorem rejected_write (source : Source) (params : Params) (r : request)
    (name : string) (statusCode : option Z) (error : string) :
  r ∈ writes_of (reconcile source params).1 →
  (meth r ≠ DELETE →
   write_reply world r = inl (GithubError name statusCode error) →
   (reconcile source params).2 = Exit 1
   ∧ stdout_of (reconcile source params).1 = []
   ∧ (JSON_parse error = None →
      last (reconcile source params).1 = Some (Stderr (Stack (SyntaxError error)))))
  ∧ (meth r = DELETE →
     delete_reply world r = inl (GithubError name statusCode error) →
     stdout_of (reconcile source params).1 = []
     ∧ (is_Some (JSON_parse error) → (reconcile source params).2 = Exit 1)
     ∧ (JSON_parse error = None →
        (reconcile source params).2 = Raise (SyntaxError error))).
Proof.
  unfold_script.
  destruct (buildUrl JSON_parse env source params) as [url|e].
  2:{ simp_script. by intros ?%elem_of_nil. }
  fold (list_request source params).
  script_cases; intros Hr; cbn in Hr;
    try (by apply elem_of_nil in Hr);
    apply list_elem_of_singleton in Hr; subst r;
    (split; intros Hmeth Hreply; cbn in Hmeth; try done);
    same_reply; split_and!; try done;
    intros; simplify_eq; try done;
    match goal with
    | H : is_Some ?x, H' : ?x = None |- _ => rewrite H' in H; by destruct H
    end.
Qed.

(** A POST or PATCH that is accepted ends the run with exactly one result,
    whose id is the id of the hook in the server's answer; a DELETE that is
    accepted ends it with exactly one result, whose id is the id of the
    hook deleted.  In both cases the process exits with status 0. *)
Theorem accepted_write (source : Source) (params : Params) (r : request) :
  r ∈ writes_of (reconcile source params).1 →
  (∀ written, meth r ≠ DELETE → write_reply world r = inr written →
     stdout_of (reconcile source params).1 = [stringify_version (pretty (id written))]
     ∧ (reconcile source params).2 = Exit 0)
  ∧ (meth r = DELETE → delete_reply world r = inr tt →
     ∃ h, r = delete_request source params h
          ∧ stdout_of (reconcile source params).1 = [stringify_version (pretty (id h))]
          ∧ (reconcile source params).2 = Exit 0).
Proof.
  unfold_script.
  destruct (buildUrl JSON_parse env source params) as [url|e].
  2:{ simp_script. by intros ?%elem_of_nil. }
  fold (list_request source params).
  script_cases; intros Hr; cbn in Hr;
    try (by apply elem_of_nil in Hr);
    apply list_elem_of_singleton in Hr; subst r;
    (split; [intros written Hmeth Hreply|intros Hmeth Hreply]; cbn in Hmeth; try done);
    same_reply; try done;
    eexists; split_and!; reflexivity.
Qed.


(** ** Whole runs *)

Lemma calls_split (source : Source) (params : Params) :
  calls_of (reconcile source params).1 = []
  ∨ calls_of (reconcile source params).1
    = list_request source params :: writes_of (reconcile source params).1.
Proof.
  unfold_script.
  destruct (buildUrl JSON_parse env source params) as [url|e].
  2:{ simp_script. by left. }
  fold (list_request source params).
  script_cases; by right.
Qed.

Lemma default_events_nonempty (input_events : option (list string)) :
  default_events input_events ≠ [].
Proof. destruct input_events as [[|x l]|]; done. Qed.

Lemma normalise_events_nonempty (input_events : option (list string)) :
  normalise_events input_events ≠ [].
Proof.
  unfold normalise_events.
  pose proof (default_events_nonempty input_events) as Hne.
  destruct (default_events input_events) as [|x l] eqn:Hd; [done|].
  intros Hnil. assert (x ∈ Set_of (x :: l)) as Hx.
  { apply Set_of_elem, elem_of_cons. by left. }
  rewrite Hnil in Hx. by apply elem_of_nil in Hx.
Qed.

Lemma script_valid_input (input : string) :
  (script input).1 = [Stderr EmptyInput]
  ∨ (∃ message, (script input).1 = [Stderr (InputError message)])
  ∨ ∃ source params,
      input ≠ "" ∧ read_input input = inr (source, params)
      ∧ script input
        = reconcile source (set_events params (normalise_events (events params))).
Proof.
  unfold on_end. destruct (String.eqb_spec input "") as [->|Hinput]; [by left|].
  destruct (read_input input) as [message|[source params]].
  - right; left. by eexists.
  - right; right. by exists source, params.
Qed.

(** A run sends a request only for a non-empty input that the validator
    accepts and whose callback URL composes; and it prints a result only
    after the list of hooks has arrived. *)
Theorem no_effect_on_the_server_without_valid_input (input : string) :
  (calls_of (script input).1 ≠ [] →
   input ≠ ""
   ∧ ∃ source params url,
       read_input input = inr (source, params)
       ∧ buildUrl JSON_parse env source
           (set_events params (normalise_events (events params))) = Normal url)
  ∧ (stdout_of (script input).1 ≠ [] →
     ∃ source params hooks,
       read_input input = inr (source, params)
       ∧ list_reply world
           (list_request source (set_events params (normalise_events (events params))))
         = inr hooks).
Proof.
  destruct (script_valid_input input)
    as [Ht|[[message Ht]|(source & params & Hinput & Hread & Hrun)]].
  - rewrite Ht. by split.
  - rewrite Ht. by split.
  - rewrite Hrun. clear Hrun. unfold_script.
    destruct (buildUrl JSON_parse env source _) as [url|e] eqn:Hurl.
    2:{ simp_script. by split. }
    split.
    + intros _. split; [done|]. by exists source, params, url.
    + fold (list_request source
              (set_events params (normalise_events (events params)))).
      script_cases; intros Hout; try done; by exists source, params; eexists.
Qed.

(** In every run, the request for the list and a DELETE carry no body, and
    the body of a POST or PATCH is named ["web"], has the two desired
    config pairs with content type ["json"], and lists events that are not
    empty and free of duplicates. *)
Theorem request_bodies (input : string) (r : request) :
  r ∈ calls_of (script input).1 →
  match meth r with
  | GET | DELETE => body r = None
  | POST | PATCH =>
      ∃ url evs,
        body r = Some {| body_name := "web";
                         body_config := [("url", url); ("content-type", "json")];
                         body_events := Some evs |}
        ∧ NoDup evs ∧ evs ≠ []
  end.
Proof.
  destruct (script_valid_input input)
    as [Ht|[[message Ht]|(source & params & Hinput & Hread & Hrun)]].
  - rewrite Ht. by intros ?%elem_of_nil.
  - rewrite Ht. by intros ?%elem_of_nil.
  - rewrite Hrun. clear Hrun.
    set (params' := set_events params (normalise_events (events params))).
    destruct (calls_split source params') as [->| ->]; [by intros ?%elem_of_nil|].
    intros [->|Hw]%elem_of_cons; [done|].
    apply write_cases in Hw
      as (url & hooks & _ & _ &
          [(_ & _ & ->)|[(h & _ & _ & _ & ->)|(h & _ & _ & ->)]]); simpl; [..|done].
    all: exists url, (normalise_events (events params)); split_and!; [done|..].
    all: first [apply normalise_events_nonempty
               | unfold normalise_events; apply Set_of_NoDup].
Qed.
End Runs.

(** ** [encodeURI] and the composed URL *)

Lemma hex_digit_inj (a b : nat) :
  (a < 16)%nat → (b < 16)%nat → hex_digit a = hex_digit b → a = b.
Proof.
  intros Ha Hb.
  do 16 (destruct a as [|a]; [do 16 (destruct b as [|b]; [by vm_compute|]); lia|]).
  lia.
Qed.

Lemma chars_app (a b : string) :
  list_ascii_of_string (a +:+ b) = list_ascii_of_string a ++ list_ascii_of_string b.
Proof.
  induction a as [|x a IH]; [done|].
  change (x :: list_ascii_of_string (a +:+ b)
          = x :: (list_ascii_of_string a ++ list_ascii_of_string b)).
  by rewrite IH.
Qed.

Lemma encodeURI_length (s : string) :
  (String.length s ≤ String.length (encodeURI s))%nat.
Proof.
  induction s as [|x s IH]; [done|].
  rewrite encodeURI_cons. destruct (uri_unescaped x); simpl; lia.
Qed.

Lemma encodeURI_fixed (s : string) :
  encodeURI s = s ↔ ∀ c, c ∈ list_ascii_of_string s → uri_unescaped c = true.
Proof.
  induction s as [|x s IH]; cbn [list_ascii_of_string].
  - split; [by intros _ c ?%elem_of_nil|done].
  - rewrite encodeURI_cons. destruct (uri_unescaped x) eqn:Hsafe.
    + split.
      * intros [= Heq] c [->|Hc]%elem_of_cons; [done|]. by apply IH.
      * intros Hall. f_equal. apply IH. intros c Hc. apply Hall, elem_of_cons. by right.
    + split.
      * intros [= _ Heq]. pose proof (encodeURI_length s) as Hlen.
        rewrite <-Heq in Hlen at 1. simpl in Hlen. lia.
      * intros Hall. rewrite Hall in Hsafe; [done|]. apply elem_of_cons. by left.
Qed.

(** The composed URL is plain ASCII in which every character is one that
    [encodeURI] leaves alone or a percent sign: no space, double quote or
    other character outside this alphabet reaches GitHub. *)
Theorem composed_url_alphabet (JSON_parse : string → option json) (env : Env)
    (source : Source) (params : Params) (url : string) (c : ascii) :
  buildUrl JSON_parse env source params = Normal url →
  c ∈ list_ascii_of_string url →
  (uri_unescaped c = true ∨ c = "%"%char)
  ∧ (nat_of_ascii c < 128)%nat
  ∧ c ≠ " "%char ∧ c ≠ "034"%char.
Proof.
  intros Hurl Hc.
  assert (uri_unescaped c = true ∨ c = "%"%char) as Hsafe.
  { unfold buildUrl in Hurl.
    destruct (buildInstanceVariables JSON_parse env params); [|done].
    destruct (truthy_str (concourse_url source)); simplify_eq;
      by apply encodeURI_chars in Hc. }
  split; [done|].
  destruct Hsafe as [Hsafe| ->]; [|by split_and!; [vm_compute; lia|..]].
  split_and!.
  - unfold uri_unescaped in Hsafe.
    apply orb_true_iff in Hsafe as [Hsafe|Hmark].
    + repeat (apply orb_true_iff in Hsafe as [Hsafe|Hsafe]);
        apply andb_true_iff in Hsafe as [_ Hle%Nat.leb_le]; lia.
    + apply existsb_exists in Hmark as (m & Hm & ->%Ascii.eqb_eq).
      vm_compute in Hm. repeat (destruct Hm as [<-|Hm]; [vm_compute; lia|]). done.
  - intros ->. vm_compute in Hsafe. discriminate.
  - intros ->. vm_compute in Hsafe. discriminate.
Qed.

(** [encodeURI] leaves a string unchanged exactly when every character of
    it is one it leaves alone; hence encoding an encoded string again
    changes it unless nothing needed escaping in the first place (a percent
    sign is itself escaped). *)
Theorem encodeURI_unchanged_iff (s : string) :
  (encodeURI s = s ↔ ∀ c, c ∈ list_ascii_of_string s → uri_unescaped c = true)
  ∧ (encodeURI (encodeURI s) = encodeURI s ↔ encodeURI s = s).
Proof.
  split; [apply encodeURI_fixed|].
  split; [|intros H; by rewrite !H].
  rewrite !encodeURI_fixed. intros Hall.
  induction s as [|x s IH]; [by intros c ?%elem_of_nil|].
  rewrite encodeURI_cons in Hall. destruct (uri_unescaped x) eqn:Hsafe.
  - intros c [->|Hc]%elem_of_cons; [done|]. apply IH; [|done].
    intros c' Hc'. apply Hall. simpl. apply elem_of_cons. by right.
  - specialize (Hall "%"%char). simpl in Hall.
    rewrite elem_of_cons in Hall. by specialize (Hall (or_introl eq_refl)).
Qed.

(** [encodeURI] is injective: two templates that differ are composed into
    URLs that differ. *)
Theorem encodeURI_inj (s1 s2 : string) : encodeURI s1 = encodeURI s2 → s1 = s2.
Proof.
  revert s2. induction s1 as [|x1 s1 IH]; intros [|x2 s2]; rewrite ?encodeURI_cons.
  - done.
  - by destruct (uri_unescaped x2).
  - by destruct (uri_unescaped x1).
  - pose proof (nat_of_ascii_bound x1) as Hx1.
    pose proof (nat_of_ascii_bound x2) as Hx2.
    destruct (uri_unescaped x1) eqn:H1, (uri_unescaped x2) eqn:H2.
    + intros [= -> Heq]. f_equal. by apply IH.
    + intros [= -> _]. done.
    + intros [= <- _]. done.
    + intros Heq. injection Heq as Hhi Hlo Heq.
      fold (Nat.div (nat_of_ascii x1) 16) (Nat.div (nat_of_ascii x2) 16) in Hhi.
      fold (Nat.modulo (nat_of_ascii x1) 16) (Nat.modulo (nat_of_ascii x2) 16) in Hlo.
      apply hex_digit_inj in Hhi;
        [|apply Nat.Div0.div_lt_upper_bound; lia..].
      apply hex_digit_inj in Hlo; [|apply Nat.mod_upper_bound; lia..].
      assert (nat_of_ascii x1 = nat_of_ascii x2) as Hn.
      { rewrite (Nat.div_mod_eq (nat_of_ascii x1) 16),
          (Nat.div_mod_eq (nat_of_ascii x2) 16). lia. }
      f_equal; [|by apply IH].
      by rewrite <-(ascii_nat_embedding x1), <-(ascii_nat_embedding x2), Hn.
Qed.

(** ** When the composition of the URL fails *)

Lemma param_fragments_normal (params : Params) (vars : string) :
  ∃ vars', param_fragments params vars = Normal vars'.
Proof.
  unfold param_fragments.
  destruct (pipeline_instance_vars params) as [[]|]; simpl; try by eexists.
  all: destruct (negb _) || destruct b; by eexists.
Qed.

(** With instance variables that are [null] or objects of strings, the
    composition of the fragments throws in two cases only, both about the
    ambient [BUILD_PIPELINE_INSTANCE_VARS] when it is a non-empty string:
    it is not JSON text, or it is the JSON text of [null].  A [null] in
    [params.pipeline_instance_vars] is skipped, and nothing that the
    parameters hold makes the composition of the fragments throw. *)
Theorem fragments_throw_iff (JSON_parse : string → option json) (env : Env)
    (params : Params) (e : exn) :
  (∀ text v, BUILD_PIPELINE_INSTANCE_VARS env = Some text →
             JSON_parse text = Some v → v = JNull ∨ strings_object v) →
  (∀ v, pipeline_instance_vars params = Some v → v = JNull ∨ strings_object v) →
  buildInstanceVariables JSON_parse env params = Throw e ↔
  ∃ text, BUILD_PIPELINE_INSTANCE_VARS env = Some text ∧ text ≠ ""
    ∧ (JSON_parse text = None ∧ e = ErrorOf (SyntaxError text)
       ∨ JSON_parse text = Some JNull ∧ e = ErrorOf TypeError).
Proof.
  intros Hambient Hparams.
  assert (buildInstanceVariables JSON_parse env params = Throw e
          ↔ ambient_fragments JSON_parse env "" = Throw e) as ->.
  { unfold buildInstanceVariables.
    destruct (ambient_fragments JSON_parse env "") as [vars|e']; [|done].
    by destruct (param_fragments_normal params vars) as [vars' ->]. }
  unfold ambient_fragments, parse, truthy_str.
  destruct (BUILD_PIPELINE_INSTANCE_VARS env) as [text|] eqn:Henv; [|naive_solver].
  destruct (String.eqb_spec text "") as [->|Hne]; simpl; [naive_solver|].
  destruct (JSON_parse text) as [v|] eqn:Hparse; simpl; [|naive_solver].
  destruct (Hambient text v eq_refl Hparse) as [->|(entries & -> & _)]; simpl;
    naive_solver.
Qed.

Lemma fragments_throw_iff_witness :
  buildInstanceVariables JSON_parse_flat (example_env (Some "{oops"))
    (example_params "create" None (Some JNull))
  = Throw (ErrorOf (SyntaxError "{oops")).
Proof.
  apply fragments_throw_iff.
  - intros text v [= <-] Hparse. discriminate Hparse.
  - intros v [= <-]. by left.
  - exists "{oops". split_and!; [reflexivity|discriminate|]. left. by split.
Defined.

(** ** The events of a run *)

Lemma Set_of_NoDup_id (l : list string) : NoDup l → Set_of l = l.
Proof.
  induction l as [|x l IH] using rev_ind; [done|].
  intros [Hl [Hx _]]%NoDup_app. rewrite Set_of_snoc, IH by done.
  unfold Set_add. rewrite bool_decide_false; [done|].
  intros Hin. apply (Hx x Hin), list_elem_of_singleton. done.
Qed.

(** Normalising the events is stable: a list that is not empty and has no
    duplicates is kept as it is, so normalising twice is normalising once;
    and the normalised list is never empty. *)
Theorem normalise_events_stable (input_events : option (list string)) :
  normalise_events (Some (normalise_events input_events)) = normalise_events input_events
  ∧ normalise_events input_events ≠ []
  ∧ (∀ l, NoDup l → l ≠ [] → normalise_events (Some l) = l).
Proof.
  assert (∀ l, NoDup l → l ≠ [] → normalise_events (Some l) = l) as Hid.
  { intros l Hl Hne. unfold normalise_events.
    destruct l as [|x l]; [done|]. simpl. by apply Set_of_NoDup_id. }
  split_and!; [|apply normalise_events_nonempty|done].
  apply Hid; [|apply normalise_events_nonempty].
  unfold normalise_events. apply Set_of_NoDup.
Qed.

(** ** The result printed *)

Lemma string_length_app (a b : string) :
  String.length (a +:+ b) = (String.length a + String.length b)%nat.
Proof.
  induction a as [|x a IH]; [done|].
  change (S (String.length (a +:+ b)) = S (String.length a + String.length b)).
  by rewrite IH.
Qed.

Lemma string_app_inj_r (a b t : string) : a +:+ t = b +:+ t → a = b.
Proof.
  revert b. induction a as [|x a IH]; intros [|y b] Heq.
  - done.
  - change (t = String y (b +:+ t)) in Heq.
    apply (f_equal String.length) in Heq. simpl in Heq.
    rewrite string_length_app in Heq. lia.
  - change (String x (a +:+ t) = t) in Heq.
    apply (f_equal String.length) in Heq. simpl in Heq.
    rewrite string_length_app in Heq. lia.
  - change (String x (a +:+ t) = String y (b +:+ t)) in Heq.
    injection Heq as -> Heq. f_equal. by apply IH.
Qed.

(** The printed result determines the id: two results are the same text
    only for the same id text, and so only for the same number. *)
Theorem stringify_version_inj :
  (∀ a b : string, stringify_version a = stringify_version b → a = b)
  ∧ (∀ z1 z2 : Z, stringify_version (pretty z1) = stringify_version (pretty z2) → z1 = z2).
Proof.
  assert (∀ a b : string, stringify_version a = stringify_version b → a = b) as Hinj.
  { intros a b Heq. unfold stringify_version, quote in Heq.
    repeat (apply String.app_inj in Heq).
    apply string_app_inj_r, String.app_inj in Heq.
    by apply string_app_inj_r in Heq. }
  split; [done|]. intros z1 z2 Heq%Hinj. by apply (inj pretty).
Qed.

(** ** Runs against a registered hook *)

Lemma find_hook_inserted (before after : list Hook) (h : Hook) (url : string) :
  find_hook (before ++ after) url = None →
  config_contains (config h) url →
  find_hook (before ++ h :: after) url = Some h.
Proof.
  intros Hnone Hc. apply find_hook_Some. exists before, after.
  split_and!; [done..|].
  apply find_hook_None, Forall_app in Hnone as [Hb _]. done.
Qed.

Section Repeated.
Variable JSON_parse : string → option json.
Variable env : Env.

(** Creating twice is creating once.  When no listed hook matches and the
    server answers the POST with a hook whose config has the desired pairs
    and whose events are the desired ones in some order, a second run that
    finds this hook anywhere in the list writes nothing and prints the same
    id as the first. *)
Theorem create_twice (world1 world2 : World) (source : Source) (params : Params)
    (url : string) (before after : list Hook) (h : Hook) :
  operation params = "create" →
  buildUrl JSON_parse env source params = Normal url →
  list_reply world1 (list_request source params) = inr (before ++ after) →
  find_hook (before ++ after) url = None →
  write_reply world1 (create_request source params url) = inr h →
  config_contains (config h) url →
  hook_events h ≡ₚ default [] (events params) →
  list_reply world2 (list_request source params) = inr (before ++ h :: after) →
  processWebhook JSON_parse env world1 source params
  = ([Stderr (Locations (hooks_endpoint source params) url);
      Call (list_request source params);
      Call (create_request source params url);
      Stderr (Created h);
      Stdout (stringify_version (pretty (id h)))], Exit 0)
  ∧ processWebhook JSON_parse env world2 source params
    = ([Stderr (Locations (hooks_endpoint source params) url);
        Call (list_request source params);
        Stderr AlreadyExists;
        Stdout (stringify_version (pretty (id h)))], Exit 0).
Proof.
  intros Hop Hurl Hlist1 Hnone Hwrite Hc Hperm%events_equal_Permutation Hlist2.
  pose proof (find_hook_inserted before after h url Hnone Hc) as Hfound.
  split.
  - unfold_script. rewrite Hurl, Hop.
    fold (list_request source params). simp_script.
    rewrite Hlist1. simp_script. rewrite Hnone.
    fold (create_request source params url). simp_script.
    rewrite Hwrite. done.
  - unfold_script. rewrite Hurl, Hop.
    fold (list_request source params). simp_script.
    rewrite Hlist2. simp_script. rewrite Hfound. simp_script.
    rewrite Hperm. done.
Qed.

(** Deleting twice is deleting once.  When exactly one listed hook matches
    and the server accepts its deletion, a second run on the list without
    it writes nothing and still succeeds, printing the clock's reading in
    place of the hook's id. *)
Theorem delete_twice (world1 world2 : World) (source : Source) (params : Params)
    (url : string) (before after : list Hook) (h : Hook) :
  operation params = "delete" →
  buildUrl JSON_parse env source params = Normal url →
  list_reply world1 (list_request source params) = inr (before ++ h :: after) →
  find_hook (before ++ after) url = None →
  config_contains (config h) url →
  delete_reply world1 (delete_request source params h) = inr tt →
  list_reply world2 (list_request source params) = inr (before ++ after) →
  processWebhook JSON_parse env world1 source params
  = ([Stderr (Locations (hooks_endpoint source params) url);
      Call (list_request source params);
      Call (delete_request source params h);
      Stderr Deleted;
      Stdout (stringify_version (pretty (id h)))], Exit 0)
  ∧ processWebhook JSON_parse env world2 source params
    = ([Stderr (Locations (hooks_endpoint source params) url);
        Call (list_request source params);
        Stderr DoesNotExist;
        Stdout (stringify_version (pretty (now world2)))], Exit 0).
Proof.
  intros Hop Hurl Hlist1 Hnone Hc Hdelete Hlist2.
  pose proof (find_hook_inserted before after h url Hnone Hc) as Hfound.
  split.
  - unfold_script. rewrite Hurl, Hop.
    fold (list_request source params). simp_script.
    rewrite Hlist1. simp_script. rewrite Hfound.
    fold (delete_request source params h). simp_script.
    rewrite Hdelete. done.
  - unfold_script. rewrite Hurl, Hop.
    fold (list_request source params). simp_script.
    rewrite Hlist2. simp_script. rewrite Hnone. done.
Qed.

(** For a run on a validated input under the create intent that finds a
    matching hook whose events have no duplicates, the run leaves the hook
    alone exactly when the hook's events and the input events (["push"]
    when the input has none) have the same members. *)
Theorem unchanged_iff_same_members (world : World)
    (read_input : string → string + Source * Params) (input : string)
    (source : Source) (params : Params) (url : string) (hooks : list Hook) (h : Hook) :
  input ≠ "" →
  read_input input = inr (source, params) →
  operation params = "create" →
  buildUrl JSON_parse env source params = Normal url →
  list_reply world (list_request source params) = inr hooks →
  find_hook hooks url = Some h →
  NoDup (hook_events h) →
  writes_of (on_end JSON_parse env world read_input input).1 = []
  ↔ ∀ x, x ∈ hook_events h ↔ x ∈ default_events (events params).
Proof.
  intros Hinput Hread Hop Hurl Hlist Hfind Hnodup.
  assert (hook_events h ≡ₚ normalise_events (events params)
          ↔ ∀ x, x ∈ hook_events h ↔ x ∈ default_events (events params)) as <-.
  { unfold normalise_events.
    rewrite (NoDup_Permutation_elem _ _ Hnodup (Set_of_NoDup _)).
    by setoid_rewrite Set_of_elem. }
  unfold on_end. destruct (String.eqb_spec input ""); [done|]. rewrite Hread.
  set (params' := set_events params (normalise_events (events params))).
  change (buildUrl JSON_parse env source params)
    with (buildUrl JSON_parse env source params') in Hurl.
  change (list_request source params) with (list_request source params') in Hlist.
  change (operation params) with (operation params') in Hop.
  change (normalise_events (events params)) with (default [] (events params')).
  unfold_script. rewrite Hurl, Hop.
  fold (list_request source params'). simp_script.
  rewrite Hlist. simp_script. rewrite Hfind. simp_script.
  destruct (isEqual _ _) eqn:Heq; script_facts.
  - done.
  - script_cases; done.
Qed.
End Repeated.

(** ** The link of the 404 hint *)

Lemma string_app_cons (c : ascii) (a b : string) :
  String c a +:+ b = String c (a +:+ b).
Proof. done. Qed.

Lemma string_app_nil_l (b : string) : "" +:+ b = b.
Proof. done. Qed.

Lemma prefix_cons_ne (c d : ascii) (p s : string) :
  c ≠ d → String.prefix (String c p) (String d s) = false.
Proof. intros Hne. cbn [String.prefix]. by destruct (ascii_dec c d). Qed.

Lemma prefix_cons_eq (c : ascii) (p s : string) :
  String.prefix (String c p) (String c s) = String.prefix p s.
Proof. cbn [String.prefix]. by destruct (ascii_dec c c). Qed.

Lemma prefix_segment (p x rest : string) :
  "/"%char ∉ list_ascii_of_string p →
  String.prefix p x = false →
  String.prefix p (x +:+ String "/" rest) = false.
Proof.
  revert x. induction p as [|c p IH]; intros x Hp Hx; [by destruct x|].
  cbn [list_ascii_of_string] in Hp. apply not_elem_of_cons in Hp as [Hc Hp].
  destruct x as [|d x].
  - rewrite string_app_nil_l. by apply prefix_cons_ne.
  - rewrite string_app_cons. destruct (decide (c = d)) as [->|Hne].
    + rewrite prefix_cons_eq in Hx |- *. by apply IH.
    + by apply prefix_cons_ne.
Qed.

Lemma replace_first_cons_ne (pattern replacement : string) (c : ascii) (rest : string) :
  String.prefix pattern (String c rest) = false →
  replace_first pattern replacement (String c rest)
  = String c (replace_first pattern replacement rest).
Proof. intros Hp. cbn [replace_first]. by rewrite Hp. Qed.

Lemma prefix_nil (s : string) : String.prefix "" s = true.
Proof. by destruct s. Qed.

Lemma replace_first_found (pattern replacement s : string) :
  String.prefix pattern s = true →
  replace_first pattern replacement s
  = replacement +:+ string_drop (String.length pattern) s.
Proof. intros Hp. destruct s; cbn [replace_first]; by rewrite Hp. Qed.

Ltac skip_char :=
  rewrite replace_first_cons_ne
    by first [ by apply prefix_cons_ne
             | rewrite prefix_cons_eq; by apply prefix_cons_ne ].

Lemma replace_first_skip (p replacement x rest : string) :
  "/"%char ∉ list_ascii_of_string x →
  replace_first (String "/" p) replacement (x +:+ rest)
  = x +:+ replace_first (String "/" p) replacement rest.
Proof.
  induction x as [|d x IH]; intros Hx; [done|].
  cbn [list_ascii_of_string] in Hx. apply not_elem_of_cons in Hx as [Hd Hx].
  rewrite !string_app_cons, replace_first_cons_ne by (by apply prefix_cons_ne).
  by rewrite IH.
Qed.

Lemma replace_first_segment (p replacement x rest : string) :
  "/"%char ∉ list_ascii_of_string p →
  "/"%char ∉ list_ascii_of_string x →
  String.prefix p x = false →
  replace_first (String "/" p) replacement (String "/" (x +:+ String "/" rest))
  = String "/" (x +:+ replace_first (String "/" p) replacement (String "/" rest)).
Proof.
  intros Hp Hx Hpx.
  rewrite replace_first_cons_ne
    by (rewrite prefix_cons_eq; by apply prefix_segment).
  by rewrite replace_first_skip.
Qed.

Lemma collaboration_url_suffix (source : Source) (params : Params) (suffix : string) :
  github_api source = "https://api.github.com" →
  "/"%char ∉ list_ascii_of_string (org params) →
  "/"%char ∉ list_ascii_of_string (repo params) →
  String.prefix "hooks" (org params) = false →
  String.prefix "hooks" (repo params) = false →
  collaboration_url (hooks_endpoint source params +:+ suffix)
  = ("https://github.com/" +:+ org params +:+ "/" +:+ repo params
     +:+ "/settings/collaboration") +:+ suffix.
Proof.
  intros Hapi Horg Hrepo Hporg Hprepo.
  assert ("/"%char ∉ list_ascii_of_string "hooks") as Hp.
  { vm_compute. intros H. repeat (apply elem_of_cons in H as [H|H]; [done|]).
    by apply elem_of_nil in H. }
  assert (replace_first "/repos" "" (replace_first "//api." "//"
            (hooks_endpoint source params +:+ suffix))
          = "https://github.com/" +:+ org params +:+ "/" +:+ repo params
            +:+ "/hooks" +:+ suffix) as Hstart.
  { unfold hooks_endpoint. rewrite Hapi, !string_app_assoc.
    rewrite !string_app_cons, !string_app_nil_l. reflexivity. }
  unfold collaboration_url. rewrite Hstart. clear Hstart.
  rewrite !string_app_assoc, !string_app_cons, !string_app_nil_l.
  do 18 skip_char.
  rewrite !(replace_first_segment "hooks") by done.
  rewrite replace_first_found by (rewrite !prefix_cons_eq; apply prefix_nil).
  reflexivity.
Qed.

Section Hints.
Variable JSON_parse : string → option json.
Variable env : Env.
Variable world : World.

(** Against the public API, [https://api.github.com], when neither the
    organisation nor the repository has a slash in its name or a name that
    starts with [hooks]: the link of a 404 hint that a reconciliation prints
    is the page of the repository's collaboration settings when the call
    that failed is the request for the list or the POST, and that page's
    address followed by [/<id>] when it is the PATCH or the DELETE of the
    hook [<id>].  When the organisation's name does start with [hooks], the
    link for the list is cut there instead and leads elsewhere. *)
Theorem not_found_hint_link (source : Source) (params : Params) (uri : string) :
  github_api source = "https://api.github.com" →
  (Stderr (NotFoundHint uri) ∈ (processWebhook JSON_parse env world source params).1 →
   "/"%char ∉ list_ascii_of_string (org params) →
   "/"%char ∉ list_ascii_of_string (repo params) →
   String.prefix "hooks" (org params) = false →
   String.prefix "hooks" (repo params) = false →
   (uri = hooks_endpoint source params
    ∧ collaboration_url uri
      = "https://github.com/" +:+ org params +:+ "/" +:+ repo params
        +:+ "/settings/collaboration")
   ∨ (∃ h, uri = hooks_endpoint source params +:+ "/" +:+ pretty (id h)
           ∧ collaboration_url uri
             = ("https://github.com/" +:+ org params +:+ "/" +:+ repo params
                +:+ "/settings/collaboration") +:+ "/" +:+ pretty (id h)))
  ∧ (∀ rest, org params = "hooks" +:+ rest →
     collaboration_url (hooks_endpoint source params)
     = "https://github.com/settings/collaboration" +:+ rest +:+ "/"
       +:+ repo params +:+ "/hooks").
Proof.
  intros Hapi. split.
  - intros Hin Horg Hrepo Hporg Hprepo.
    assert (uri = hooks_endpoint source params
            ∨ ∃ h, uri = hooks_endpoint source params +:+ "/" +:+ pretty (id h))
      as [->|(h & ->)].
    { revert Hin. unfold_script.
      destruct (buildUrl JSON_parse env source params) as [url|e].
      2:{ simp_script. by intros ?%elem_of_nil. }
      script_cases; intros Hin;
        repeat (apply elem_of_cons in Hin as [Hin|Hin];
                [try discriminate Hin|]);
        try (by apply elem_of_nil in Hin);
        injection Hin as ->; eauto. }
    + left. split; [done|].
      rewrite <-(string_app_nil_r (hooks_endpoint source params)).
      rewrite collaboration_url_suffix by done. by rewrite string_app_nil_r.
    + right. exists h. split; [done|]. by rewrite collaboration_url_suffix.
  - intros rest Hrest.
    assert (replace_first "/repos" "" (replace_first "//api." "//"
              (hooks_endpoint source params))
            = "https://github.com/" +:+ org params +:+ "/" +:+ repo params +:+ "/hooks")
      as Hstart.
    { unfold hooks_endpoint. rewrite Hapi.
      rewrite !string_app_cons, !string_app_nil_l. reflexivity. }
    unfold collaboration_url. rewrite Hstart, Hrest.
    rewrite !string_app_cons, !string_app_nil_l.
    do 18 skip_char.
    rewrite replace_first_found by (rewrite !prefix_cons_eq; apply prefix_nil).
    reflexivity.
Qed.
End Hints.

(** ** The further properties at the examples *)

Lemma writes_are_justified_witness :
  ∃ url hooks,
    buildUrl JSON_parse_flat (example_env None) example_source create_params = Normal url
    ∧ list_reply (example_world [other_hook] (example_hook 9 ["push"]))
        (list_request example_source create_params) = inr hooks.
Proof.
  destruct (writes_are_justified JSON_parse_flat (example_env None)
              (example_world [other_hook] (example_hook 9 ["push"]))
              example_source create_params
              (create_request example_source create_params example_url))
    as (url & hooks & Hurl & Hlist & _).
  - vm_compute. constructor.
  - by exists url, hooks.
Defined.

Lemma addressed_hook_witness :
  ∃ url before h after,
    buildUrl JSON_parse_flat (example_env None) example_source delete_params = Normal url
    ∧ list_reply (example_world [other_hook; example_hook 1 ["push"]] other_hook)
        (list_request example_source delete_params) = inr (before ++ h :: after)
    ∧ config h !! "url" = Some (JStr url)
    ∧ config h !! "content-type" = Some (JStr "json")
    ∧ Forall (fun h' => ¬ config_contains (config h') url) before
    ∧ uri (delete_request example_source delete_params (example_hook 1 ["push"]))
      = hooks_endpoint example_source delete_params +:+ "/" +:+ pretty (id h).
Proof.
  apply (addressed_hook_is_listed_and_matches JSON_parse_flat (example_env None)
           (example_world [other_hook; example_hook 1 ["push"]] other_hook)
           example_source delete_params).
  - vm_compute. constructor.
  - discriminate.
Defined.

Lemma failed_list_call_witness :
  processWebhook JSON_parse_flat (example_env None) unreachable_world
    example_source create_params
  = ([Stderr (Locations (hooks_endpoint example_source create_params) example_url);
      Call (list_request example_source create_params);
      Stderr (CallFailed "StatusCodeError" (Some 404%Z)
                (JObj [("message", JStr "Not Found")]));
      Stderr (NotFoundHint (hooks_endpoint example_source create_params))],
     Exit 1).
Proof.
  destruct (failed_list_call JSON_parse_flat (example_env None) unreachable_world
              example_source create_params example_url
              "StatusCodeError" (Some 404%Z) not_found_text eq_refl eq_refl)
    as (_ & _ & H & _).
  exact (H (JObj [("message", JStr "Not Found")]) eq_refl).
Defined.

Lemma rejected_write_witness :
  (processWebhook JSON_parse_flat (example_env None) (refusing_world [other_hook])
     example_source create_params).2 = Exit 1
  ∧ stdout_of (processWebhook JSON_parse_flat (example_env None)
                 (refusing_world [other_hook]) example_source create_params).1 = [].
Proof.
  destruct (rejected_write JSON_parse_flat (example_env None)
              (refusing_world [other_hook]) example_source create_params
              (create_request example_source create_params example_url)
              "StatusCodeError" (Some 404%Z) not_found_text)
    as (H & _).
  - vm_compute. constructor.
  - destruct (H ltac:(discriminate) eq_refl) as (H1 & H2 & _). by split.
Defined.

Lemma accepted_write_witness :
  stdout_of (processWebhook JSON_parse_flat (example_env None)
               (example_world [other_hook] (example_hook 9 ["push"]))
               example_source create_params).1
  = [stringify_version "9"].
Proof.
  destruct (accepted_write JSON_parse_flat (example_env None)
              (example_world [other_hook] (example_hook 9 ["push"]))
              example_source create_params
              (create_request example_source create_params example_url))
    as (H & _).
  - vm_compute. constructor.
  - destruct (H (example_hook 9 ["push"]) ltac:(discriminate) eq_refl) as (H1 & _).
    rewrite H1. reflexivity.
Defined.

Lemma no_effect_without_valid_input_witness :
  ∃ source params hooks,
    accept_input example_source create_params "{}" = inr (source, params)
    ∧ list_reply (example_world [other_hook] (example_hook 9 ["push"]))
        (list_request source (set_events params (normalise_events (events params))))
      = inr hooks.
Proof.
  destruct (no_effect_on_the_server_without_valid_input JSON_parse_flat
              (example_env None)
              (example_world [other_hook] (example_hook 9 ["push"]))
              (accept_input example_source create_params) "{}") as (_ & H).
  apply H. vm_compute. discriminate.
Defined.

Lemma request_bodies_witness :
  ∃ url evs,
    body (create_request example_source create_params example_url)
    = Some {| body_name := "web";
              body_config := [("url", url); ("content-type", "json")];
              body_events := Some evs |}
    ∧ NoDup evs ∧ evs ≠ [].
Proof.
  apply (request_bodies JSON_parse_flat (example_env None)
           (example_world [other_hook] (example_hook 9 ["push"]))
           (accept_input example_source (example_params "create" (Some ["push"; "push"]) None))
           "{}" (create_request example_source create_params example_url)).
  vm_compute. right. constructor.
Defined.

Lemma composed_url_alphabet_witness :
  (nat_of_ascii "/" < 128)%nat.
Proof.
  apply (composed_url_alphabet JSON_parse_flat (example_env None) example_source
           create_params example_url "/"%char eq_refl).
  vm_compute. do 6 right. constructor.
Defined.

Lemma encodeURI_inj_witness : "a b" = "a b".
Proof. apply encodeURI_inj. reflexivity. Defined.

Lemma normalise_events_stable_witness :
  normalise_events (Some ["push"; "pull_request"]) = ["push"; "pull_request"].
Proof.
  destruct (normalise_events_stable None) as (_ & _ & H).
  apply H; [|discriminate].
  apply NoDup_cons. split; [|apply NoDup_singleton].
  intros Hin%list_elem_of_singleton. discriminate Hin.
Defined.

Lemma stringify_version_inj_witness : (7 : Z) = 7%Z.
Proof.
  destruct stringify_version_inj as (_ & H). apply H. reflexivity.
Defined.

Lemma create_twice_witness :
  processWebhook JSON_parse_flat (example_env None)
    (example_world [other_hook; example_hook 9 ["push"]] other_hook)
    example_source create_params
  = ([Stderr (Locations (hooks_endpoint example_source create_params) example_url);
      Call (list_request example_source create_params);
      Stderr AlreadyExists;
      Stdout (stringify_version (pretty (id (example_hook 9 ["push"]))))], Exit 0).
Proof.
  destruct (create_twice JSON_parse_flat (example_env None)
              (example_world [other_hook] (example_hook 9 ["push"]))
              (example_world [other_hook; example_hook 9 ["push"]] other_hook)
              example_source create_params example_url
              [other_hook] [] (example_hook 9 ["push"])
              eq_refl eq_refl eq_refl eq_refl eq_refl) as (_ & H).
  - apply isMatch_contains. vm_compute. reflexivity.
  - reflexivity.
  - reflexivity.
  - exact H.
Defined.

Lemma delete_twice_witness :
  processWebhook JSON_parse_flat (example_env None)
    (example_world [other_hook] other_hook) example_source delete_params
  = ([Stderr (Locations (hooks_endpoint example_source delete_params) example_url);
      Call (list_request example_source delete_params);
      Stderr DoesNotExist;
      Stdout (stringify_version
                (pretty (now (example_world [other_hook] other_hook))))], Exit 0).
Proof.
  destruct (delete_twice JSON_parse_flat (example_env None)
              (example_world [other_hook; example_hook 9 ["push"]] other_hook)
              (example_world [other_hook] other_hook)
              example_source delete_params example_url
              [other_hook] [] (example_hook 9 ["push"])
              eq_refl eq_refl eq_refl eq_refl) as (_ & H).
  - apply isMatch_contains. vm_compute. reflexivity.
  - reflexivity.
  - reflexivity.
  - exact H.
Defined.

Lemma unchanged_iff_same_members_witness :
  writes_of (on_end JSON_parse_flat (example_env None)
               (example_world [example_hook 1 ["pull_request"; "push"]] other_hook)
               (accept_input example_source
                  (example_params "create" (Some ["push"; "pull_request"; "push"]) None))
               "{}").1 = [].
Proof.
  apply (unchanged_iff_same_members JSON_parse_flat (example_env None)
           (example_world [example_hook 1 ["pull_request"; "push"]] other_hook)
           (accept_input example_source
              (example_params "create" (Some ["push"; "pull_request"; "push"]) None))
           "{}" example_source
           (example_params "create" (Some ["push"; "pull_request"; "push"]) None)
           example_url [example_hook 1 ["pull_request"; "push"]]
           (example_hook 1 ["pull_request"; "push"])).
  - discriminate.
  - reflexivity.
  - reflexivity.
  - reflexivity.
  - reflexivity.
  - vm_compute. reflexivity.
  - apply NoDup_cons. split; [|apply NoDup_singleton].
    intros Hin%list_elem_of_singleton. discriminate Hin.
  - intros x. simpl. rewrite !elem_of_cons, elem_of_nil. tauto.
Defined.

Lemma not_found_hint_link_witness :
  collaboration_url "https://api.github.com/repos/acme/app/hooks/1"
  = "https://github.com/acme/app/settings/collaboration/1".
Proof.
  assert ("/"%char ∉ list_ascii_of_string "acme") as Horg.
  { vm_compute. intros Hin. repeat (apply elem_of_cons in Hin as [Hin|Hin]; [done|]).
    by apply elem_of_nil in Hin. }
  assert ("/"%char ∉ list_ascii_of_string "app") as Hrepo.
  { vm_compute. intros Hin. repeat (apply elem_of_cons in Hin as [Hin|Hin]; [done|]).
    by apply elem_of_nil in Hin. }
  assert (Stderr (NotFoundHint "https://api.github.com/repos/acme/app/hooks/1")
          ∈ (processWebhook JSON_parse_flat (example_env None)
               (refusing_world [example_hook 1 ["push"]])
               example_source delete_params).1) as Hin.
  { vm_compute. do 4 right. left. }
  destruct (not_found_hint_link JSON_parse_flat (example_env None)
              (refusing_world [example_hook 1 ["push"]])
              example_source delete_params
              "https://api.github.com/repos/acme/app/hooks/1" eq_refl) as (H & _).
  destruct (H Hin Horg Hrepo eq_refl eq_refl) as [(Huri & _)|(h & Huri & Hlink)].
  - discriminate Huri.
  - rewrite Hlink.
    change "https://api.github.com/repos/acme/app/hooks/1"
      with (hooks_endpoint example_source delete_params +:+ "/" +:+ "1") in Huri.
    do 2 apply String.app_inj in Huri. rewrite <-Huri. reflexivity.
Defined.

(** ** The composed URL as a key *)

(** Two resources of one pipeline never get the same callback URL: when two
    parameter records differ in nothing that the composer reads except the
    resource name, and compose to the same URL, the names are the same. *)
Theorem buildUrl_separates_resources (JSON_parse : string → option json) (env : Env)
    (source : Source) (p1 p2 : Params) (url : string) :
  pipeline p1 = pipeline p2 →
  webhook_token p1 = webhook_token p2 →
  pipeline_instance_vars p1 = pipeline_instance_vars p2 →
  buildUrl JSON_parse env source p1 = Normal url →
  buildUrl JSON_parse env source p2 = Normal url →
  resource_name p1 = resource_name p2.
Proof.
  intros Hpipe Htoken Hvars H1 H2.
  assert (buildInstanceVariables JSON_parse env p1
          = buildInstanceVariables JSON_parse env p2) as Hsame.
  { unfold buildInstanceVariables, param_fragments. by rewrite Hvars. }
  unfold buildUrl in H1, H2. rewrite Hsame in H1.
  destruct (buildInstanceVariables JSON_parse env p2) as [vars|]; [|done].
  assert (encodeURI (base_url env source +:+ url_tail env p1 vars)
          = encodeURI (base_url env source +:+ url_tail env p2 vars)) as Heq.
  { unfold base_url. destruct (truthy_str (concourse_url source)); congruence. }
  apply encodeURI_inj, String.app_inj in Heq.
  unfold url_tail in Heq. rewrite Hpipe, Htoken in Heq.
  do 5 apply String.app_inj in Heq.
  by apply string_app_inj_r in Heq.
Qed.

Lemma buildUrl_separates_resources_witness :
  resource_name create_params = resource_name delete_params.
Proof.
  apply (buildUrl_separates_resources JSON_parse_flat (example_env None)
           example_source create_params delete_params example_url);
    reflexivity.
Defined.

(** The composed URL is the template as written exactly when every
    character of the template is one that needs no escaping; a template
    that already holds a percent sign is never left as written (the sign
    itself is escaped, so an escaped base URL is escaped twice). *)
Theorem composed_url_plain_iff (JSON_parse : string → option json) (env : Env)
    (source : Source) (params : Params) (vars : string) :
  buildInstanceVariables JSON_parse env params = Normal vars →
  (buildUrl JSON_parse env source params
   = Normal (base_url env source +:+ url_tail env params vars)
   ↔ ∀ c, c ∈ list_ascii_of_string (base_url env source +:+ url_tail env params vars) →
          uri_unescaped c = true)
  ∧ ("%"%char ∈ list_ascii_of_string (base_url env source +:+ url_tail env params vars) →
     buildUrl JSON_parse env source params
     ≠ Normal (base_url env source +:+ url_tail env params vars)).
Proof.
  intros Hvars.
  assert (buildUrl JSON_parse env source params
          = Normal (encodeURI (base_url env source +:+ url_tail env params vars)))
    as ->.
  { unfold buildUrl, base_url. rewrite Hvars.
    by destruct (truthy_str (concourse_url source)). }
  assert (∀ s, Normal (encodeURI s) = Normal s ↔ encodeURI s = s) as Hn.
  { intros s. split; [by intros [= ->]|by intros ->]. }
  rewrite Hn, encodeURI_fixed. split; [done|].
  intros Hin Hall. by specialize (Hall _ Hin).
Qed.

Lemma composed_url_plain_iff_witness :
  buildUrl JSON_parse_flat (example_env None)
    {| concourse_url := Some "https://ci.example.com/a%20b";
       github_api := "https://api.github.com"; github_token := "secret" |}
    create_params
  = Normal "https://ci.example.com/a%2520b/api/v1/teams/t/pipelines/p/resources/r/check/webhook?webhook_token=tok"
  ∧ buildUrl JSON_parse_flat (example_env None)
      {| concourse_url := Some "https://ci.example.com/a%20b";
         github_api := "https://api.github.com"; github_token := "secret" |}
      create_params
    ≠ Normal "https://ci.example.com/a%20b/api/v1/teams/t/pipelines/p/resources/r/check/webhook?webhook_token=tok".
Proof.
  split; [reflexivity|].
  destruct (composed_url_plain_iff JSON_parse_flat (example_env None)
              {| concourse_url := Some "https://ci.example.com/a%20b";
                 github_api := "https://api.github.com"; github_token := "secret" |}
              create_params "" eq_refl) as (_ & H).
  apply H. vm_compute. do 24 right. constructor.
Defined.
